(** * plugin-help: the help-article renderer of [src/index.ts]

    A shallow embedding of the class [Help]: [renderList] (the two-column
    layout with its stacked fallback), [renderScreen] and [renderMarkdown].

    - JavaScript strings are [string]s, one [ascii] per code unit; the string
      primitives the code calls ([trim], [split], [join], [repeat],
      truthiness) are defined in [Module JS].
    - The npm packages the file imports (lodash's [template] and
      [capitalize], strip-ansi, string-width, wrap-ansi, indent-string,
      chalk) are not part of the repository: they are the fields of the
      interface [Deps], and every general theorem holds for all of them.
      widest-line alone is defined, from string-width, as the package is.
      [Module Ref] gives one executable implementation for plain text, used
      to run the renderer on concrete inputs.
    - An exception is a value, so the renderers return a [result]:
      [' '.repeat(n)] throws a [RangeError] when [n] is negative, and the
      closure [renderMultiline] throws a [ReferenceError] when it is called
      before the declaration of the variable it assigns has been reached.
    - The packages are taken to return on every input.  The compiled
      template in particular is a function from text to text: the statements
      are about texts on which template substitution returns, and none of
      them says that a renderer returns on a text on which it would not. *)

From Stdlib Require Import String Ascii List ZArith Lia Bool Arith.
Import ListNotations.
Local Open Scope string_scope.

(** ** Exceptions *)

Inductive error : Type := RangeError | ReferenceError.

Inductive result (A : Type) : Type :=
| Ok (a : A)
| Throw (e : error).
Arguments Ok {A} a.
Arguments Throw {A} e.

Definition bind {A B : Type} (r : result A) (k : A -> result B) : result B :=
  match r with
  | Ok a => k a
  | Throw e => Throw e
  end.

Notation "x <- r ;; k" := (bind r (fun x => k))
  (at level 61, r at next level, right associativity).

Fixpoint mapM {A B : Type} (f : A -> result B) (l : list A) : result (list B) :=
  match l with
  | [] => Ok []
  | a :: rest => b <- f a ;; bs <- mapM f rest ;; Ok (b :: bs)
  end.

(** ** JavaScript string primitives *)

Module JS.

(** [!!s] for a string: only the empty string is falsy. *)
Definition truthy (s : string) : bool := negb (s =? "").

(** White space and line terminators removed by [String.prototype.trim],
    among the code units below 256. *)
Definition is_space (c : ascii) : bool :=
  let n := nat_of_ascii c in
  (((9 <=? n) && (n <=? 13)) || (n =? 32) || (n =? 160))%nat.

Fixpoint trimStart (s : string) : string :=
  match s with
  | "" => ""
  | String c r => if is_space c then trimStart r else s
  end.

Fixpoint trimEnd (s : string) : string :=
  match s with
  | "" => ""
  | String c r =>
      match trimEnd r with
      | "" => if is_space c then "" else String c ""
      | r' => String c r'
      end
  end.

Definition trim (s : string) : string := trimEnd (trimStart s).

(** [s.split(sep)] for a one-character separator: never an empty array. *)
Fixpoint split (sep : ascii) (s : string) : list string :=
  match s with
  | "" => [""]
  | String c r =>
      if Ascii.eqb c sep then "" :: split sep r
      else match split sep r with
           | [] => [String c ""]
           | l :: ls => String c l :: ls
           end
  end.

(** [a.join(sep)] on an array of strings. *)
Definition join (sep : string) (a : list string) : string := String.concat sep a.

Fixpoint replicate (n : nat) (s : string) : string :=
  match n with
  | O => ""
  | S n' => s ++ replicate n' s
  end.

(** [s.repeat(count)]: a negative count throws. *)
Definition repeat (s : string) (count : Z) : result string :=
  if (count <? 0)%Z then Throw RangeError
  else Ok (replicate (Z.to_nat count) s).

(** [_(a).compact()] on an array of strings drops the empty ones. *)
Definition compact (a : list string) : list string := filter truthy a.

Definition LF : ascii := ascii_of_nat 10.
Definition nl : string := String LF "".

End JS.

(** ** The imported packages *)

Class Deps : Type := {
  (** [_.template(t)({config})] for the configuration of this [Help]. *)
  template : string -> string;
  (** [strip-ansi]. *)
  stripAnsi : string -> string;
  (** [string-width]. *)
  width : string -> nat;
  (** [wrap-ansi], always called with [{hard: true, trim: false}]. *)
  wrap : string -> Z -> string;
  (** [indent-string] with a non-negative count. *)
  indent : string -> nat -> string;
  (** [chalk.bold]. *)
  bold : string -> string;
  (** [_.capitalize]. *)
  capitalize : string -> string;
  (** [String.prototype.toUpperCase], which depends on the Unicode tables. *)
  toUpperCase : string -> string;
  (** [screen.stdtermwidth]. *)
  stdtermwidth : Z
}.

(** ** Data model *)

(** A row of a list body is an array of optional strings; the renderer reads
    its first two elements by destructuring, [[left, right]]. *)
Definition Row : Type := list (option string).

Definition row_left (r : Row) : option string :=
  match r with
  | x :: _ => x
  | [] => None
  end.

Definition row_right (r : Row) : option string :=
  match r with
  | _ :: y :: _ => y
  | _ => None
  end.

(** [body: string | string[] | (string | undefined)[][]]. *)
Inductive Body : Type :=
| Prose (s : string)
| ProseLines (l : list string)
| PairList (rows : list Row).

Inductive SectionType : Type := plain | code.

Record Section_ : Type := {
  heading : string;
  type : option SectionType;
  body : Body
}.

Record Article : Type := {
  title : option string;
  sections : list Section_
}.

Module Opts.
Record t : Type := {
  maxWidth : Z;
  multiline : bool;
  stripAnsi : bool
}.
End Opts.

(** ** [renderList] *)

Section Render.
Context {D : Deps}.

(** [widest-line]: the largest [string-width] of the lines of its input. *)
Definition widestLine (s : string) : nat :=
  fold_left Nat.max (map width (JS.split JS.LF s)) 0%nat.

(** [renderTemplate(template)] is [_.template(template || '')({config})]. *)
Definition renderTemplate (t : option string) : string :=
  template (match t with Some s => s | None => "" end).

Definition strip (opts : Opts.t) (s : string) : string :=
  if Opts.stripAnsi opts then stripAnsi s else s.

(** One iteration of the loop of [renderMultiline]. *)
Definition multiline_body (opts : Opts.t) (output : string) (row : string * string) : string :=
  let '(left_, right_) := row in
  if negb (JS.truthy left_) && negb (JS.truthy right_) then output
  else
    let output :=
      if JS.truthy left_
      then output ++ wrap (JS.trim (strip opts left_)) (Opts.maxWidth opts)
      else output in
    let output :=
      if JS.truthy right_
      then output ++ JS.nl
                  ++ indent (wrap (JS.trim (strip opts right_)) (Opts.maxWidth opts - 2)) 4
      else output in
    output ++ JS.nl ++ JS.nl.

(** The text that the closure [renderMultiline] of [renderList] returns, on
    the rows after template substitution. *)
Definition renderMultiline (opts : Opts.t) (input : list (string * string)) : string :=
  JS.trim (fold_left (multiline_body opts) input "").

(** A call [renderMultiline()].  The closure starts with [output = ''], an
    assignment to the variable that [renderList] declares with [let] on line
    176, after the closure and after the call of line 174: before that
    declaration has been reached the assignment throws a [ReferenceError]. *)
Definition call_renderMultiline (declared : bool) (opts : Opts.t)
           (input : list (string * string)) : result string :=
  if declared then Ok (renderMultiline opts input) else Throw ReferenceError.

(** The variables of the compact loop. *)
Record LoopState : Type := {
  output : string;
  spacer : string;
  cur : string
}.

Inductive Step : Type :=
| Continue (st : LoopState)
| ReturnMultiline
| Raise (e : error).

(** [if (cur) { output += spacer; output += cur }]. *)
Definition flush (st : LoopState) : string :=
  if JS.truthy (cur st) then output st ++ spacer st ++ cur st else output st.

(** The body of the loop [for (let [left, right] of input)] of the compact
    mode, lines 180 to 203. *)
Definition loop_body (opts : Opts.t) (maxLength : nat) (st : LoopState)
           (row : string * string) : Step :=
  let '(left_, right_) := row in
  let output := flush st in
  let cur := strip opts left_ in
  if negb (JS.truthy right_) then
    Continue {| output := output; spacer := spacer st; cur := JS.trim cur |}
  else
    let right_ := strip opts right_ in
    let right_ := wrap (JS.trim right_)
                      (Opts.maxWidth opts - (Z.of_nat maxLength + 2)) in
    let parts := map JS.trim (JS.split JS.LF right_) in
    (* [first] of an empty array would be [undefined] and print as such;
       [split] never returns one. *)
    let first := hd "undefined" parts in
    let lines := tl parts in
    match JS.repeat " " (Z.of_nat maxLength - Z.of_nat (width cur) + 2) with
    | Throw e => Raise e
    | Ok pad =>
        let cur := cur ++ pad ++ first in
        if (length lines =? 0)%nat then
          Continue {| output := output; spacer := spacer st; cur := cur |}
        else if (4 <? length lines)%nat then ReturnMultiline
        else
          Continue {| output := output;
                      spacer := JS.nl ++ JS.nl;
                      cur := cur ++ JS.nl
                                 ++ indent (JS.join JS.nl lines) (maxLength + 2) |}
    end.

Fixpoint compact_loop (opts : Opts.t) (maxLength : nat) (st : LoopState)
         (input : list (string * string)) : Step :=
  match input with
  | [] => Continue st
  | row :: rest =>
      match loop_body opts maxLength st row with
      | Continue st' => compact_loop opts maxLength st' rest
      | other => other
      end
  end.

Definition template_row (r : Row) : string * string :=
  (renderTemplate (row_left r), renderTemplate (row_right r)).

(** [widestLine(input.map(i => i[0]).join('\n'))]. *)
Definition maxLength_of (input : list (string * string)) : nat :=
  widestLine (JS.join JS.nl (map fst input)).

Definition init : LoopState := {| output := ""; spacer := JS.nl; cur := "" |}.

Definition renderList (input : list Row) (opts : Opts.t) : result string :=
  match input with
  | [] => Ok ""
  | _ =>
      let input := map template_row input in
      if Opts.multiline opts then call_renderMultiline false opts input
      else
        match compact_loop opts (maxLength_of input) init input with
        | Continue st => Ok (JS.trim (flush st))
        | ReturnMultiline => call_renderMultiline true opts input
        | Raise e => Throw e
        end
  end.

(** ** [renderScreen] and [renderMarkdown] *)

(** [s.body.length]. *)
Definition body_length (b : Body) : nat :=
  match b with
  | Prose s => String.length s
  | ProseLines l => length l
  | PairList rows => length rows
  end.

(** [_.isArray(s.body[0])]: a character of a string and a prose line are
    strings, [undefined] is not an array, a row is one. *)
Definition first_isArray (b : Body) : bool :=
  match b with
  | PairList (_ :: _) => true
  | _ => false
  end.

(** [s.body as any], where it is handed to [renderList]. *)
Definition as_rows (b : Body) : list Row :=
  match b with
  | PairList rows => rows
  | _ => []
  end.

(** [_.castArray(s.body).join('\n')]; an array element that is itself an
    array is joined with commas, its [undefined]s printing as nothing. *)
Definition castArray_join (b : Body) : string :=
  match b with
  | Prose s => s
  | ProseLines l => JS.join JS.nl l
  | PairList rows =>
      JS.join JS.nl
        (map (fun r : Row => JS.join "," (map (fun o => match o with Some x => x | None => "" end) r))
             rows)
  end.

Definition screen_body (s : Section_) : result string :=
  let maxWidth := stdtermwidth in
  let b := body s in
  if (body_length b =? 0)%nat then Ok ""
  else if first_isArray b then
    renderList (as_rows b)
               {| Opts.maxWidth := maxWidth - 2; Opts.multiline := false; Opts.stripAnsi := false |}
  else
    let body := castArray_join b in
    let body := renderTemplate (Some body) in
    Ok (wrap body (maxWidth - 2)).

Definition screen_section (s : Section_) : result string :=
  body <- screen_body s ;;
  Ok (JS.join JS.nl (JS.compact [bold (toUpperCase (heading s)); indent body 2])).

Definition renderScreen (article : Article) : result string :=
  secs <- mapM screen_section (sections article) ;;
  Ok (JS.join (JS.nl ++ JS.nl) (JS.compact (renderTemplate (title article) :: secs))).

Definition markdown_body (s : Section_) : result string :=
  let maxWidth := 100%Z in
  let b := body s in
  let body := JS.nl in
  if (body_length b =? 0)%nat then Ok (body ++ "")
  else if first_isArray b then
    list <- renderList (as_rows b)
              {| Opts.maxWidth := maxWidth - 2; Opts.multiline := false; Opts.stripAnsi := true |} ;;
    Ok (body ++ "```" ++ JS.nl ++ list ++ JS.nl ++ "```")
  else
    let output := castArray_join b in
    let output := renderTemplate (Some output) in
    Ok (body ++ wrap (stripAnsi output) (maxWidth - 2)).

Definition markdown_section (s : Section_) : result string :=
  body <- markdown_body s ;;
  let body :=
    match type s with
    | Some code => JS.nl ++ "```sh-session" ++ body ++ JS.nl ++ "```"
    | _ => body
    end in
  Ok (JS.join JS.nl (JS.compact ["**" ++ capitalize (heading s) ++ "**"; body]) ++ JS.nl).

(** [width(article.title)]: string-width answers 0 when it is not handed a
    string. *)
Definition width_of_title (t : option string) : nat :=
  match t with
  | Some s => width s
  | None => 0
  end.

Definition renderMarkdown (article : Article) : result string :=
  underline <- JS.repeat "-" (Z.of_nat (width_of_title (title article))) ;;
  secs <- mapM markdown_section (sections article) ;;
  Ok (JS.trim (JS.join JS.nl
                 (stripAnsi (renderTemplate (title article)) :: underline :: "" :: secs))).

End Render.

(** ** [showHelp], [render], [root] and [command] *)

(** [HelpOptions]. *)
Inductive Format : Type := markdown | screen | man.

Record HelpOptions : Type := {
  format : option Format;
  all : option bool
}.

(** The collaborators of [Help] that live outside [index.ts]: the article
    builders [RootHelp] and [CommandHelp], and the command table of the
    configuration. *)
Class Collab : Type := {
  Command : Type;
  (** [new RootHelp(this.config, this.opts).root()]. *)
  rootArticle : HelpOptions -> Article;
  (** [new CommandHelp(this.config, this.opts).command(command)]. *)
  commandArticle : HelpOptions -> Command -> Article;
  (** [this.config.findCommand(subject, {must: true})]: the command, or
      [None] when the call throws because there is none. *)
  findCommand : string -> option Command
}.

(** Why a call of [showHelp] did not return. *)
Inductive Failure : Type :=
| RenderFailure (e : error)
| CommandNotFound (subject : string).

(** What a call of [showHelp] did: the arguments of its calls of [cli.info],
    in order ([None] for the call without argument), and the exception that
    ended it, if any. *)
Record Run : Type := {
  printed : list (option string);
  failure : option Failure
}.

Section Help.
Context {D : Deps} {C : Collab}.

(** The closure [getHelpSubject] of [showHelp]; [None] is [undefined]. *)
Fixpoint getHelpSubject (argv : list string) : option string :=
  match argv with
  | [] => None
  | arg :: rest =>
      if arg =? "--" then None
      else if prefix "-" arg then getHelpSubject rest
      else if arg =? "help" then getHelpSubject rest
      else Some arg
  end.

Definition render (opts : HelpOptions) (article : Article) : result string :=
  match format opts with
  | Some markdown => renderMarkdown article
  | Some man | Some screen | None => renderScreen article
  end.

Definition root (opts : HelpOptions) : result string :=
  render opts (rootArticle opts).

Definition command (opts : HelpOptions) (c : Command) : result string :=
  render opts (commandArticle opts c).

(** [cli.info(text)], where computing [text] may throw. *)
Definition info (text : result string) : Run :=
  match text with
  | Ok s => {| printed := [Some s]; failure := None |}
  | Throw e => {| printed := []; failure := Some (RenderFailure e) |}
  end.

Definition showHelp (opts : HelpOptions) (argv : list string) : Run :=
  let subject := getHelpSubject argv in
  let run :=
    match subject with
    | None => info (root opts)
    | Some subject =>
        if negb (JS.truthy subject) then info (root opts)
        else
          match findCommand subject with
          | None => {| printed := []; failure := Some (CommandNotFound subject) |}
          | Some command_ => info (command opts command_)
          end
    end in
  match failure run with
  | Some _ => run
  | None =>
      match format opts with
      | Some screen => {| printed := (printed run ++ [None])%list; failure := None |}
      | _ => run
      end
  end.

End Help.

(** ** A reference implementation of the packages

    An executable instance of [Deps] for text over 8-bit code units whose
    only styling is SGR-like sequences [ESC [ params letter].  It follows the
    packages on such text: string-width strips the styling and skips control
    characters; widest-line is already [widestLine]; wrap-ansi wraps each
    line greedily at spaces and breaks an over-long word ([hard]), keeping
    the white space ([trim: false]); indent-string leaves blank lines alone;
    the template replaces the interpolation of [config.bin]. *)

Module Ref.

Definition ESC : ascii := ascii_of_nat 27.

Definition code_in (lo hi : nat) (c : ascii) : bool :=
  ((lo <=? nat_of_ascii c) && (nat_of_ascii c <=? hi))%nat.

Definition is_param (c : ascii) : bool := code_in 48 57 c || code_in 59 59 c.
Definition is_letter (c : ascii) : bool := code_in 65 90 c || code_in 97 122 c.
Definition is_control (c : ascii) : bool := code_in 0 31 c || code_in 127 159 c.

Inductive Scan : Type := Text | SawEsc | InCsi.

(** [pending] holds the characters of a sequence that is not complete yet:
    they are dropped when it completes and kept when it does not. *)
Fixpoint strip_scan (st : Scan) (pending : string) (s : string) : string :=
  match s with
  | "" => pending
  | String c r =>
      let restart :=
        if Ascii.eqb c ESC then strip_scan SawEsc (String c "") r
        else String c (strip_scan Text "" r) in
      match st with
      | Text => restart
      | SawEsc =>
          if Ascii.eqb c "["%char then strip_scan InCsi (pending ++ String c "") r
          else pending ++ restart
      | InCsi =>
          if is_param c then strip_scan InCsi (pending ++ String c "") r
          else if is_letter c then strip_scan Text "" r
          else pending ++ restart
      end
  end.

Definition stripAnsi (s : string) : string := strip_scan Text "" s.

Fixpoint visible (s : string) : nat :=
  match s with
  | "" => 0
  | String c r => if is_control c then visible r else S (visible r)
  end.

Definition width (s : string) : nat := visible (stripAnsi s).

(** Rows are kept newest first. *)
Definition add_last (rows : list string) (x : string) : list string :=
  match rows with
  | r :: rs => (r ++ x) :: rs
  | [] => [x]
  end.

(** [wrapWord(rows, word, cols)] of wrap-ansi, on a word without styling. *)
Fixpoint wrapWord_loop (cols : Z) (rows : list string) (vis : Z) (word : string)
  : list string * Z :=
  match word with
  | "" => (rows, vis)
  | String c rest =>
      let ch := String c "" in
      let charLength := Z.of_nat (width ch) in
      let '(rows, vis) :=
        if (vis + charLength <=? cols)%Z then (add_last rows ch, vis)
        else (ch :: rows, 0%Z) in
      let vis := (vis + charLength)%Z in
      let '(rows, vis) :=
        if (vis =? cols)%Z && negb (rest =? "") then ("" :: rows, 0%Z)
        else (rows, vis) in
      wrapWord_loop cols rows vis rest
  end.

Definition wrapWord (rows : list string) (word : string) (cols : Z) : list string :=
  let '(rows, vis) :=
    wrapWord_loop cols rows (Z.of_nat (width (hd "" rows))) word in
  match rows with
  | r :: r' :: rs =>
      if (vis =? 0)%Z && negb (r =? "") then (r' ++ r) :: rs else rows
  | _ => rows
  end.

Definition exec_word (cols : Z) (rows : list string) (word : string) : list string :=
  let rowLength := Z.of_nat (width (hd "" rows)) in
  let len := Z.of_nat (width word) in
  let '(rows, rowLength) :=
    if negb (rowLength =? 0)%Z || (word =? "")
    then (add_last rows " ", (rowLength + 1)%Z)
    else (rows, rowLength) in
  if (cols <? len)%Z then
    wrapWord (if negb (rowLength =? 0)%Z then "" :: rows else rows) word cols
  else
    let rows :=
      if (cols <? rowLength + len)%Z && (0 <? rowLength)%Z then "" :: rows else rows in
    add_last rows word.

(** [exec(str, cols, {hard: true, trim: false})] on one line. *)
Definition exec (str : string) (cols : Z) : string :=
  if JS.trim str =? "" then str
  else JS.join JS.nl (rev (fold_left (exec_word cols) (JS.split " "%char str) [""])).

Definition wrap (str : string) (cols : Z) : string :=
  JS.join JS.nl (map (fun line => exec line cols) (JS.split JS.LF str)).

Definition indent (str : string) (count : nat) : string :=
  if (count =? 0)%nat then str
  else JS.join JS.nl
         (map (fun line => if JS.trim line =? "" then line
                           else JS.replicate count " " ++ line)
              (JS.split JS.LF str)).

Definition upper (c : ascii) : ascii :=
  if code_in 97 122 c then ascii_of_nat (nat_of_ascii c - 32) else c.
Definition lower (c : ascii) : ascii :=
  if code_in 65 90 c then ascii_of_nat (nat_of_ascii c + 32) else c.

Fixpoint map_chars (f : ascii -> ascii) (s : string) : string :=
  match s with
  | "" => ""
  | String c r => String (f c) (map_chars f r)
  end.

Definition toUpperCase (s : string) : string := map_chars upper s.

Definition capitalize (s : string) : string :=
  match s with
  | "" => ""
  | String c r => String (upper c) (map_chars lower r)
  end.

Definition bold (s : string) : string :=
  if s =? "" then ""
  else String ESC "[1m" ++ s ++ String ESC "[22m".

(** [config.bin] of the reference configuration. *)
Definition bin : string := "mycli".

(** The template language cut down to the interpolation of [config.bin]:
    [skip] counts the characters of a placeholder still to be dropped. *)
Fixpoint interpolate (skip : nat) (s : string) : string :=
  match s with
  | "" => ""
  | String c r =>
      match skip with
      | S k => interpolate k r
      | O =>
          if prefix "<%= config.bin %>" s then bin ++ interpolate 16 r
          else String c (interpolate 0 r)
      end
  end.

#[export] Instance deps : Deps :=
  Build_Deps (interpolate 0) stripAnsi width wrap indent bold capitalize toUpperCase 80.

End Ref.

(** ** Vocabulary of the statements *)

(** A string without a line feed is its own only line. *)
Fixpoint single_line (s : string) : bool :=
  match s with
  | "" => true
  | String c r => negb (Ascii.eqb c JS.LF) && single_line r
  end.

Section Vocabulary.
Context {D : Deps}.

(** A side of a row is absent when it is [undefined] or the empty string:
    the code tests it with [!left], [!right]. *)
Definition absent (o : option string) : Prop := o = None \/ o = Some "".

(** The columns left to the description beside the label column. *)
Definition desc_cols (opts : Opts.t) (maxLength : nat) : Z :=
  Opts.maxWidth opts - (Z.of_nat maxLength + 2).

(** The lines a description is laid out on in compact mode: wrapped to the
    description column, split and trimmed, as on lines 190 to 193. *)
Definition wrapped_lines (opts : Opts.t) (maxLength : nat) (right_ : string) : list string :=
  map JS.trim
      (JS.split JS.LF (wrap (JS.trim (strip opts right_)) (desc_cols opts maxLength))).

(** The row has a description with more than four lines after its first. *)
Definition overflows (opts : Opts.t) (maxLength : nat) (row : string * string) : bool :=
  JS.truthy (snd row) && (4 <? length (tl (wrapped_lines opts maxLength (snd row))))%nat.

(** The row has a description that continues below its first line. *)
Definition row_wraps (opts : Opts.t) (maxLength : nat) (row : string * string) : bool :=
  JS.truthy (snd row)
  && negb (length (tl (wrapped_lines opts maxLength (snd row))) =? 0)%nat.

(** The label of a row with a description is no wider than the padded label
    column, so that the padding count is not negative. *)
Definition label_fits (opts : Opts.t) (maxLength : nat) (row : string * string) : Prop :=
  JS.truthy (snd row) = true -> (width (strip opts (fst row)) <= maxLength + 2)%nat.

(** The text of one row in compact mode. *)
Definition row_text (opts : Opts.t) (maxLength : nat) (row : string * string) : string :=
  let label := strip opts (fst row) in
  if JS.truthy (snd row) then
    let parts := wrapped_lines opts maxLength (snd row) in
    label ++ JS.replicate (maxLength + 2 - width label) " " ++ hd "undefined" parts
          ++ match tl parts with
             | [] => ""
             | lines => JS.nl ++ indent (JS.join JS.nl lines) (maxLength + 2)
             end
  else JS.trim label.

(** The rows of compact mode, each with the separator that precedes it: a
    line feed up to the first row that wraps, a blank line from that row on;
    a row with an empty text is left out. *)
Fixpoint emitted (sep : string) (rows : list (string * bool)) : string :=
  match rows with
  | [] => ""
  | (text, wraps) :: rest =>
      let sep := if wraps : bool then JS.nl ++ JS.nl else sep in
      (if JS.truthy text then sep ++ text else "") ++ emitted sep rest
  end.

(** The separators as the specification words them: a blank line after a row,
    a single line feed after a row that has no description.  Each row comes
    with its text and whether it has a description. *)
Fixpoint spec_join (rows : list (string * bool)) : string :=
  match rows with
  | [] => ""
  | (text, described) :: rest =>
      match rest with
      | [] => text
      | _ => text ++ (if described : bool then JS.nl ++ JS.nl else JS.nl) ++ spec_join rest
      end
  end.

(** [renderList] after the template substitution of its rows, lines 157 to
    209. *)
Definition render_rows (opts : Opts.t) (input : list (string * string)) : result string :=
  if Opts.multiline opts then call_renderMultiline false opts input
  else
    match compact_loop opts (maxLength_of input) init input with
    | Continue st => Ok (JS.trim (flush st))
    | ReturnMultiline => call_renderMultiline true opts input
    | Raise e => Throw e
    end.

(** The outcome of the loop, as [renderList] reads it. *)
Definition settled (s : Step) : result (option string) :=
  match s with
  | Continue st => Ok (Some (flush st))
  | ReturnMultiline => Ok None
  | Raise e => Throw e
  end.

(** Two loop states that the rest of the loop cannot tell apart. *)
Definition same_out (a b : LoopState) : Prop :=
  flush a = flush b /\ spacer a = spacer b.

End Vocabulary.

(** ** Vocabulary of the further statements *)

Section Decision.
Context {D : Deps}.

(** How [renderList] ends on its rows, read off the rows in order. *)
Inductive Mode : Type := Compact | Stacked | Throws.

(** The first row with a description that decides: a label wider than the
    padded label column makes [repeat] throw, a description that overflows
    sends the list to the stacked mode; rows without description decide
    nothing. *)
Fixpoint layout_mode (opts : Opts.t) (maxLength : nat) (rows : list (string * string)) : Mode :=
  match rows with
  | [] => Compact
  | row :: rest =>
      if JS.truthy (snd row) then
        if (maxLength + 2 <? width (strip opts (fst row)))%nat then Throws
        else if overflows opts maxLength row then Stacked
        else layout_mode opts maxLength rest
      else layout_mode opts maxLength rest
  end.

(** The text of the stacked mode before it is trimmed. *)
Definition stacked_text (opts : Opts.t) (rows : list (string * string)) : string :=
  fold_left (multiline_body opts) rows "".

(** A row as the destructuring [[left, right]] reads it: its first two
    elements, [undefined] read as the empty string. *)
Definition as_pair (r : Row) : Row :=
  [Some (match row_left r with Some s => s | None => "" end);
   Some (match row_right r with Some s => s | None => "" end)].

(** The arguments that [getHelpSubject] steps over: options other than [--],
    and the word [help]. *)
Definition skipped (arg : string) : bool :=
  negb (arg =? "--") && (prefix "-" arg || (arg =? "help")).

(** An argument that [getHelpSubject] returns when it reaches it. *)
Definition is_subject (arg : string) : bool :=
  negb (arg =? "--") && negb (prefix "-" arg) && negb (arg =? "help").

(** The options with which [renderScreen] and [renderMarkdown] call
    [renderList]. *)
Definition screen_opts : Opts.t :=
  {| Opts.maxWidth := stdtermwidth - 2; Opts.multiline := false; Opts.stripAnsi := false |}.
Definition markdown_opts : Opts.t :=
  {| Opts.maxWidth := 98; Opts.multiline := false; Opts.stripAnsi := true |}.

(** The text of a body chosen by its shape, as the dispatch is worded: the
    list renderer for a list of at least one row, the wrapper for a string
    or for lines of prose that are not empty, and nothing for an empty body,
    list or prose alike. *)
Definition body_by_shape (on_list : list Row -> result string) (on_prose : string -> string)
           (b : Body) : result string :=
  match b with
  | PairList (r :: rows) => on_list (r :: rows)
  | PairList [] => Ok ""
  | ProseLines (l :: ls) => Ok (on_prose (JS.join JS.nl (l :: ls)))
  | ProseLines [] => Ok ""
  | Prose (String c s) => Ok (on_prose (String c s))
  | Prose "" => Ok ""
  end.

(** The call without argument that ends [showHelp] when the format is
    [screen]. *)
Definition blank_line (opts : HelpOptions) : list (option string) :=
  match format opts with
  | Some screen => [None]
  | _ => []
  end.

(** [showHelp] around the text it is to print. *)
Definition shown (opts : HelpOptions) (text : result string) : Run :=
  match text with
  | Ok s => {| printed := Some s :: blank_line opts; failure := None |}
  | Throw e => {| printed := []; failure := Some (RenderFailure e) |}
  end.

End Decision.

(** ** Inputs that the statements are run on *)

Definition row2 (l r : string) : Row := [Some l; Some r].

Definition lines (l : list string) : string := JS.join JS.nl l.

Definition o80 : Opts.t :=
  {| Opts.maxWidth := 80; Opts.multiline := false; Opts.stripAnsi := false |}.

(** A description of five lines. *)
Definition five_lines : list Row := [row2 "a" (lines ["1"; "2"; "3"; "4"; "5"])].

(** A row that overflows, followed by a row whose label of two lines is
    wider than the padded label column. *)
Definition overflow_then_wide : list Row :=
  [row2 "a" (lines ["1"; "2"; "3"; "4"; "5"; "6"]); row2 (lines ["abc"; "def"]) "x"].

(** A label of two lines beside a description of two lines. *)
Definition ragged_label : list Row :=
  [row2 (lines ["ab"; "c"]) (lines ["hello"; "world"])].

(** Two rows with short descriptions; a heading row between two rows, the
    first of which wraps. *)
Definition two_short : list Row := [row2 "a" "x"; row2 "b" "y"].
Definition with_header : list Row :=
  [row2 "a" (lines ["1"; "2"]); [Some "h"]; row2 "b" "y"].

(** The example of the specification, in a narrow window. *)
Definition flags : list Row :=
  [row2 "--force" "Overwrite existing files"; row2 "-h, --help" "show help"].
Definition o24 : Opts.t :=
  {| Opts.maxWidth := 24; Opts.multiline := false; Opts.stripAnsi := false |}.

(** A row with nothing on either side, between two rows. *)
Definition nothing : Row := [None; Some ""].

(** Sections with an empty list body read as sections with no prose lines. *)
Definition empty_list_as_prose (s : Section_) : Section_ :=
  match body s with
  | PairList [] => {| heading := heading s; type := type s; body := ProseLines [] |}
  | _ => s
  end.

Definition empty_lists_as_prose (a : Article) : Article :=
  {| title := title a; sections := map empty_list_as_prose (sections a) |}.

(** A list ten columns wide whose description has six lines, the first one
    eight columns wide: it is rendered in stacked mode. *)
Definition o10 : Opts.t :=
  {| Opts.maxWidth := 10; Opts.multiline := false; Opts.stripAnsi := false |}.
Definition eight_wide : list Row :=
  [row2 "L" (lines ["ab cd ef"; "2"; "3"; "4"; "5"; "6"])].

(** A title that interpolates the name of the executable. *)
Definition templated_title : Article :=
  {| title := Some "<%= config.bin %>"; sections := [] |}.

(** A section whose heading is in bold. *)
Definition styled_heading : Article :=
  {| title := Some "mycli";
     sections := [ {| heading := Ref.bold "options"; type := None; body := Prose "none" |} ] |}.

(** A list whose only label has two lines. *)
Definition two_line_label : list Row := [row2 (lines ["abc"; "def"]) "x"].
Definition two_line_label_article : Article :=
  {| title := Some "mycli";
     sections := [ {| heading := "options"; type := None; body := PairList two_line_label |} ] |}.

(** The string holds the escape character that starts a styling sequence. *)
Fixpoint has_escape (s : string) : bool :=
  match s with
  | "" => false
  | String c r => Ascii.eqb c Ref.ESC || has_escape r
  end.

(** A command table with the one command [build], for the runs of
    [showHelp]. *)
Module RefHelp.

Definition rootArticle (_ : HelpOptions) : Article :=
  {| title := Some "mycli";
     sections := [ {| heading := "commands"; type := None;
                      body := PairList [row2 "build" "compile the project"] |} ] |}.

Definition commandArticle (_ : HelpOptions) (c : string) : Article :=
  {| title := Some c; sections := [] |}.

Definition findCommand (subject : string) : option string :=
  if subject =? "build" then Some "build" else None.

#[export] Instance collab : Collab :=
  Build_Collab string rootArticle commandArticle findCommand.

End RefHelp.

Definition as_screen : HelpOptions := {| format := Some screen; all := None |}.

(** Labels without descriptions, one of them blank. *)
Definition labels_only : list Row := [[Some " build "]; [Some "  "]; [Some "test"; None]].

(** A section without body. *)
Definition no_body : Section_ := {| heading := "usage"; type := None; body := Prose "" |}.

(** ** Facts on the string primitives *)

Lemma split_not_nil (sep : ascii) (s : string) : JS.split sep s <> [].
Proof.
  destruct s as [|c r]; simpl; [discriminate|].
  destruct (Ascii.eqb c sep); [discriminate|].
  destruct (JS.split sep r); discriminate.
Qed.

Lemma split_app (sep : ascii) (a b : string) :
  JS.split sep (a ++ String sep b) = (JS.split sep a ++ JS.split sep b)%list.
Proof.
  induction a as [|c a IH]; simpl.
  - now rewrite Ascii.eqb_refl.
  - rewrite IH. destruct (Ascii.eqb c sep); [reflexivity|].
    pose proof (split_not_nil sep a) as Hne.
    destruct (JS.split sep a); [contradiction|reflexivity].
Qed.

Lemma join_cons2 (sep x y : string) (l : list string) :
  JS.join sep (x :: y :: l) = x ++ sep ++ JS.join sep (y :: l).
Proof. reflexivity. Qed.

Lemma split_join (ls : list string) :
  ls <> [] ->
  JS.split JS.LF (JS.join JS.nl ls) = concat (map (JS.split JS.LF) ls).
Proof.
  induction ls as [|x ls IH]; [congruence|intros _].
  destruct ls as [|y ls].
  - simpl. now rewrite app_nil_r.
  - rewrite join_cons2. change (x ++ JS.nl ++ JS.join JS.nl (y :: ls))
      with (x ++ String JS.LF (JS.join JS.nl (y :: ls))).
    rewrite split_app, IH by discriminate. reflexivity.
Qed.

Lemma split_single_line (s : string) :
  single_line s = true -> JS.split JS.LF s = [s].
Proof.
  induction s as [|c r IH]; simpl; [reflexivity|].
  destruct (Ascii.eqb c JS.LF); simpl; [discriminate|].
  intros H. now rewrite (IH H).
Qed.

Lemma truthy_false (s : string) : JS.truthy s = false <-> s = "".
Proof.
  unfold JS.truthy. rewrite negb_false_iff. apply String.eqb_eq.
Qed.

Lemma fold_max_list_max (l : list nat) (a : nat) :
  fold_left Nat.max l a = Nat.max a (list_max l).
Proof.
  revert a. induction l as [|x l IH]; intros a; simpl.
  - now rewrite Nat.max_0_r.
  - rewrite IH. now rewrite Nat.max_assoc.
Qed.

(** ** Facts on the label column *)

Section LabelColumn.
Context {D : Deps}.

Lemma widestLine_list_max (s : string) :
  widestLine s = list_max (map width (JS.split JS.LF s)).
Proof. unfold widestLine. now rewrite fold_max_list_max. Qed.

Lemma widestLine_single_line (s : string) :
  single_line s = true -> widestLine s = width s.
Proof.
  intros H. rewrite widestLine_list_max, (split_single_line s H). simpl.
  apply Nat.max_0_r.
Qed.

Lemma list_max_concat_lines (ls : list string) :
  list_max (map width (concat (map (JS.split JS.LF) ls)))
  = list_max (map widestLine ls).
Proof.
  induction ls as [|x ls IH]; [reflexivity|].
  cbn [map concat]. rewrite map_app, list_max_app, IH.
  now rewrite <- widestLine_list_max.
Qed.

(** The label column is as wide as the widest line of any label. *)
Lemma widestLine_join (ls : list string) :
  ls <> [] -> widestLine (JS.join JS.nl ls) = list_max (map widestLine ls).
Proof.
  intros H. rewrite widestLine_list_max, split_join by assumption.
  apply list_max_concat_lines.
Qed.

Lemma widestLine_join_all (ls : list string) :
  width "" = 0%nat ->
  widestLine (JS.join JS.nl ls) = list_max (map widestLine ls).
Proof.
  intros H0. destruct ls as [|x ls].
  - cbn. rewrite H0. reflexivity.
  - apply widestLine_join. discriminate.
Qed.

Lemma list_max_truthy (ls : list string) :
  width "" = 0%nat ->
  list_max (map widestLine (filter JS.truthy ls)) = list_max (map widestLine ls).
Proof.
  intros H0. induction ls as [|x ls IH]; [reflexivity|].
  cbn [filter]. destruct (JS.truthy x) eqn:E; cbn [map list_max fold_right].
  - fold (list_max (map widestLine (filter JS.truthy ls))).
    fold (list_max (map widestLine ls)). now rewrite IH.
  - fold (list_max (map widestLine ls)). rewrite IH.
    apply truthy_false in E. subst x. cbn. rewrite H0. reflexivity.
Qed.

End LabelColumn.

(** ** Facts on the compact loop *)

Lemma append_assoc (a b c : string) : (a ++ b) ++ c = a ++ b ++ c.
Proof. induction a as [|x a IH]; simpl; [reflexivity|now rewrite IH]. Qed.

Lemma append_nil_r (a : string) : a ++ "" = a.
Proof. induction a as [|x a IH]; simpl; [reflexivity|now rewrite IH]. Qed.

Section Loop.
Context {D : Deps}.
Variable opts : Opts.t.
Variable maxLength : nat.

Lemma renderList_rows (input : list Row) :
  Opts.multiline opts = false ->
  renderList input opts = render_rows opts (map template_row input).
Proof.
  intros Hm. destruct input as [|r input]; [|reflexivity].
  unfold render_rows. now rewrite Hm.
Qed.

Lemma repeat_fits (label : string) :
  (width label <= maxLength + 2)%nat ->
  JS.repeat " " (Z.of_nat maxLength - Z.of_nat (width label) + 2)
  = Ok (JS.replicate (maxLength + 2 - width label) " ").
Proof.
  intros H. unfold JS.repeat.
  destruct (Z.ltb_spec (Z.of_nat maxLength - Z.of_nat (width label) + 2) 0) as [Hn|_];
    [lia|].
  do 2 f_equal. lia.
Qed.

(** What one iteration does to the state, for a row whose label fits. *)
Lemma loop_body_cases (st : LoopState) (row : string * string) :
  label_fits opts maxLength row ->
  loop_body opts maxLength st row
  = if overflows opts maxLength row then ReturnMultiline
    else Continue {| output := flush st;
                     spacer := if row_wraps opts maxLength row
                               then JS.nl ++ JS.nl else spacer st;
                     cur := row_text opts maxLength row |}.
Proof.
  destruct row as [l r]. unfold label_fits, loop_body, overflows, row_wraps, row_text.
  cbn [fst snd]. intros Hfit.
  destruct (JS.truthy r) eqn:Hr; cbn [negb andb]; [|reflexivity].
  rewrite (repeat_fits _ (Hfit eq_refl)).
  fold (desc_cols opts maxLength). fold (wrapped_lines opts maxLength r).
  destruct (tl (wrapped_lines opts maxLength r)) as [|x lines] eqn:Htl.
  - cbn. now rewrite !append_nil_r.
  - cbn [length Nat.eqb negb].
    destruct (4 <? S (length lines))%nat; [reflexivity|].
    now rewrite !append_assoc.
Qed.

Lemma loop_body_never_raises (st : LoopState) (row : string * string) (e : error) :
  label_fits opts maxLength row -> loop_body opts maxLength st row <> Raise e.
Proof.
  intros H. rewrite (loop_body_cases st row H).
  destruct (overflows opts maxLength row); discriminate.
Qed.

(** The loop reads its state through [flush] and [spacer] only. *)
Lemma loop_body_ext (a b : LoopState) (row : string * string) :
  same_out a b -> loop_body opts maxLength a row = loop_body opts maxLength b row.
Proof.
  intros [Hf Hs]. destruct row as [l r]. unfold loop_body. now rewrite Hf, Hs.
Qed.

Lemma compact_loop_app (st : LoopState) (xs ys : list (string * string)) :
  compact_loop opts maxLength st (xs ++ ys)%list
  = match compact_loop opts maxLength st xs with
    | Continue st' => compact_loop opts maxLength st' ys
    | other => other
    end.
Proof.
  revert st. induction xs as [|x xs IH]; intros st; [reflexivity|].
  cbn [app compact_loop]. destruct (loop_body opts maxLength st x); auto.
Qed.

Lemma compact_loop_ext (a b : LoopState) (rows : list (string * string)) :
  same_out a b ->
  settled (compact_loop opts maxLength a rows) = settled (compact_loop opts maxLength b rows).
Proof.
  intros H. destruct rows as [|row rows]; cbn [compact_loop].
  - cbn. now destruct H as [-> _].
  - now rewrite (loop_body_ext a b row H).
Qed.

(** A row with nothing on either side leaves the loop as it was. *)
Lemma loop_body_blank (st : LoopState) :
  stripAnsi "" = "" ->
  exists st', loop_body opts maxLength st ("", "") = Continue st' /\ same_out st' st.
Proof.
  intros Hs. unfold loop_body. cbn [JS.truthy String.eqb negb].
  assert (Hstrip : strip opts "" = "").
  { unfold strip. now destruct (Opts.stripAnsi opts). }
  rewrite Hstrip. eexists. split; [reflexivity|].
  split; reflexivity.
Qed.

Lemma compact_loop_blank (st : LoopState) (xs ys : list (string * string)) :
  stripAnsi "" = "" ->
  settled (compact_loop opts maxLength st (xs ++ ("", "") :: ys)%list)
  = settled (compact_loop opts maxLength st (xs ++ ys)%list).
Proof.
  intros Hs. rewrite !compact_loop_app.
  destruct (compact_loop opts maxLength st xs) as [st1| |e]; try reflexivity.
  cbn [compact_loop]. destruct (loop_body_blank st1 Hs) as (st2 & -> & Hsame).
  now apply compact_loop_ext.
Qed.

(** The closed form of a loop in which no row overflows. *)
Lemma compact_loop_emitted (st : LoopState) (rows : list (string * string)) :
  Forall (label_fits opts maxLength) rows ->
  Forall (fun row => overflows opts maxLength row = false) rows ->
  exists st',
    compact_loop opts maxLength st rows = Continue st'
    /\ flush st'
       = flush st
         ++ emitted (spacer st)
              (map (fun row => (row_text opts maxLength row, row_wraps opts maxLength row))
                   rows).
Proof.
  intros Hfit. revert st. induction Hfit as [|row rows Hrow Hrows IH]; intros st Hov.
  - exists st. split; [reflexivity|]. cbn. now rewrite append_nil_r.
  - inversion Hov as [|? ? Hov1 Hov2]; subst.
    cbn [compact_loop]. rewrite (loop_body_cases st row Hrow), Hov1.
    destruct (IH {| output := flush st;
                    spacer := if row_wraps opts maxLength row
                              then JS.nl ++ JS.nl else spacer st;
                    cur := row_text opts maxLength row |} Hov2) as (st' & Hrun & Hflush).
    exists st'. split; [exact Hrun|]. rewrite Hflush. cbn [map emitted].
    unfold flush at 1. cbn [cur output spacer].
    destruct (JS.truthy (row_text opts maxLength row)).
    + now rewrite !append_assoc.
    + reflexivity.
Qed.

(** One overflowing row sends the whole loop to the stacked mode. *)
Lemma compact_loop_overflow (st : LoopState) (rows : list (string * string)) :
  Forall (label_fits opts maxLength) rows ->
  Exists (fun row => overflows opts maxLength row = true) rows ->
  compact_loop opts maxLength st rows = ReturnMultiline.
Proof.
  intros Hfit. revert st. induction Hfit as [|row rows Hrow Hrows IH]; intros st Hex.
  - inversion Hex.
  - cbn [compact_loop]. rewrite (loop_body_cases st row Hrow).
    destruct (overflows opts maxLength row) eqn:Hov; [reflexivity|].
    apply IH. inversion Hex; subst; [congruence|assumption].
Qed.

(** The rows after the first overflowing row are not read. *)
Lemma compact_loop_overflow_at (st : LoopState) (pre post : list (string * string))
      (row : string * string) :
  Forall (label_fits opts maxLength) pre ->
  label_fits opts maxLength row ->
  overflows opts maxLength row = true ->
  compact_loop opts maxLength st (pre ++ row :: post)%list = ReturnMultiline.
Proof.
  intros Hpre Hrow Hov. revert st. induction Hpre as [|r pre Hr Hpre IH]; intros st.
  - cbn [app compact_loop]. now rewrite (loop_body_cases st row Hrow), Hov.
  - cbn [app compact_loop]. rewrite (loop_body_cases st r Hr).
    destruct (overflows opts maxLength r); [reflexivity|apply IH].
Qed.

Lemma compact_loop_never_raises (st : LoopState) (rows : list (string * string)) (e : error) :
  Forall (label_fits opts maxLength) rows ->
  compact_loop opts maxLength st rows <> Raise e.
Proof.
  intros Hfit. revert st. induction Hfit as [|row rows Hrow Hrows IH]; intros st.
  - discriminate.
  - cbn [compact_loop]. rewrite (loop_body_cases st row Hrow).
    destruct (overflows opts maxLength row); [discriminate|apply IH].
Qed.

End Loop.

(** ** The stacked fallback (C1) *)

(** Discharges a [Forall] over an explicit list, element by element. *)
Ltac forall_by tac := repeat (apply Forall_cons; [tac|]); apply Forall_nil.

(** C1, as the specification states it, fails: a description that wraps to
    five lines exceeds four lines, yet the list stays in compact mode and
    differs from the text of the stacked mode. *)
Lemma five_lines_stay_compact :
  length (wrapped_lines (D := Ref.deps) o80
            (maxLength_of (D := Ref.deps) (map (template_row (D := Ref.deps)) five_lines))
            (lines ["1"; "2"; "3"; "4"; "5"])) = 5%nat
  /\ renderList (D := Ref.deps) five_lines o80
     = Ok (lines ["a  1"; "   2"; "   3"; "   4"; "   5"])
  /\ renderMultiline (D := Ref.deps) o80 (map (template_row (D := Ref.deps)) five_lines)
     = lines ["a"; "    1"; "    2"; "    3"; "    4"; "    5"]
  /\ renderList (D := Ref.deps) five_lines o80
     <> Ok (renderMultiline (D := Ref.deps) o80
              (map (template_row (D := Ref.deps)) five_lines)).
Proof.
  repeat split; try (vm_compute; reflexivity).
  vm_compute. discriminate.
Qed.

(** C1, amended: in a list rendered without [opts.multiline], when the
    description of some row has more than four lines after its first one
    (more than five wrapped lines in all), and the label of that row and of
    every row with a description before it fits the padded label column, so
    that the loop reaches the row, the whole output of [renderList] is the
    text of the stacked mode for the same rows and options, whatever the
    rows after it are. *)
Theorem overflow_renders_stacked {D : Deps} (input : list Row) (opts : Opts.t)
        (pre post : list (string * string)) (row : string * string) :
  Opts.multiline opts = false ->
  map template_row input = (pre ++ row :: post)%list ->
  Forall (label_fits opts (maxLength_of (map template_row input))) pre ->
  label_fits opts (maxLength_of (map template_row input)) row ->
  overflows opts (maxLength_of (map template_row input)) row = true ->
  renderList input opts = Ok (renderMultiline opts (map template_row input)).
Proof.
  intros Hm Hrows Hpre Hrow Hov. rewrite (renderList_rows opts input Hm).
  unfold render_rows. rewrite Hm.
  set (m := maxLength_of (map template_row input)) in *.
  rewrite Hrows at 1.
  now rewrite (compact_loop_overflow_at opts m init pre post row Hpre Hrow Hov).
Qed.

Lemma overflow_renders_stacked_witness :
  renderList (D := Ref.deps) overflow_then_wide o80
  = Ok (renderMultiline (D := Ref.deps) o80
          (map (template_row (D := Ref.deps)) overflow_then_wide)).
Proof.
  apply (overflow_renders_stacked (D := Ref.deps) overflow_then_wide o80
           [] [(lines ["abc"; "def"], "x")]
           ("a", lines ["1"; "2"; "3"; "4"; "5"; "6"])).
  - reflexivity.
  - reflexivity.
  - apply Forall_nil.
  - intros _. vm_compute. lia.
  - vm_compute. reflexivity.
Defined.

(** ** The separators of compact mode (C3) *)

(** C3, as the specification states it, fails: two rows with one-line
    descriptions are a single line feed apart, not a blank line; and once a
    row has wrapped, a row without description is a blank line away from the
    next row. *)
Lemma separators_differ_from_spec :
  renderList (D := Ref.deps) two_short o80 = Ok (lines ["a  x"; "b  y"])
  /\ spec_join [("a  x", true); ("b  y", true)] = lines ["a  x"; ""; "b  y"]
  /\ renderList (D := Ref.deps) with_header o80
     = Ok (lines ["a  1"; "   2"; ""; "h"; ""; "b  y"])
  /\ spec_join [(lines ["a  1"; "   2"], true); ("h", false); ("b  y", true)]
     = lines ["a  1"; "   2"; ""; "h"; "b  y"]
  /\ renderList (D := Ref.deps) two_short o80
     <> Ok (spec_join
              (map (fun row =>
                      (row_text (D := Ref.deps) o80
                         (maxLength_of (D := Ref.deps)
                            (map (template_row (D := Ref.deps)) two_short)) row,
                       JS.truthy (snd row)))
                   (map (template_row (D := Ref.deps)) two_short)))
  /\ renderList (D := Ref.deps) with_header o80
     <> Ok (spec_join
              (map (fun row =>
                      (row_text (D := Ref.deps) o80
                         (maxLength_of (D := Ref.deps)
                            (map (template_row (D := Ref.deps)) with_header)) row,
                       JS.truthy (snd row)))
                   (map (template_row (D := Ref.deps)) with_header))).
Proof.
  repeat split; try (vm_compute; reflexivity); vm_compute; discriminate.
Qed.

(** C3, amended: in compact mode, when no row overflows and the labels fit,
    the output is the trimmed sequence of the non-empty row texts, each
    preceded by its separator: a single line feed for the rows before the
    first row whose description continues below its first line, a blank line
    for that row and every row after it, with or without description. *)
Theorem compact_separators {D : Deps} (input : list Row) (opts : Opts.t) :
  Opts.multiline opts = false ->
  Forall (label_fits opts (maxLength_of (map template_row input))) (map template_row input) ->
  Forall (fun row => overflows opts (maxLength_of (map template_row input)) row = false)
         (map template_row input) ->
  renderList input opts
  = Ok (JS.trim
          (emitted JS.nl
             (map (fun row => (row_text opts (maxLength_of (map template_row input)) row,
                               row_wraps opts (maxLength_of (map template_row input)) row))
                  (map template_row input)))).
Proof.
  intros Hm Hfit Hov. rewrite (renderList_rows opts input Hm).
  unfold render_rows. rewrite Hm.
  destruct (compact_loop_emitted opts _ init _ Hfit Hov) as (st & -> & Hflush).
  now rewrite Hflush.
Qed.

Lemma compact_separators_witness :
  renderList (D := Ref.deps) with_header o80
  = Ok (JS.trim
          (emitted JS.nl
             [(lines ["a  1"; "   2"], true); ("h", false); ("b  y", false)])).
Proof.
  apply (compact_separators (D := Ref.deps) with_header o80).
  - reflexivity.
  - forall_by ltac:(intros _; vm_compute; lia).
  - forall_by ltac:(vm_compute; reflexivity).
Defined.

(** ** Rows with nothing to show (C8) *)

Lemma widestLine_empty {D : Deps} : width "" = 0%nat -> widestLine "" = 0%nat.
Proof. intros H. unfold widestLine. cbn. now rewrite H. Qed.

Lemma maxLength_of_blank {D : Deps} (xs ys : list (string * string)) :
  width "" = 0%nat ->
  maxLength_of (xs ++ ("", "") :: ys)%list = maxLength_of (xs ++ ys)%list.
Proof.
  intros Hw. unfold maxLength_of.
  rewrite !widestLine_join_all, !map_app, !list_max_app by exact Hw.
  cbn [map fst]. change (list_max (widestLine "" :: map widestLine (map fst ys)))
    with (Nat.max (widestLine "") (list_max (map widestLine (map fst ys)))).
  now rewrite (widestLine_empty Hw).
Qed.

Lemma renderMultiline_blank {D : Deps} (opts : Opts.t) (xs ys : list (string * string)) :
  renderMultiline opts (xs ++ ("", "") :: ys)%list = renderMultiline opts (xs ++ ys)%list.
Proof. unfold renderMultiline. now rewrite !fold_left_app. Qed.

(** C8: a row whose label and description are both absent leaves no trace
    in the output of [renderList]: in compact mode and in the fallback the
    output is the output for the list without that row, and the text of the
    stacked mode is the text for the rows without that row. *)
Theorem absent_row_emits_nothing {D : Deps} (xs ys : list Row) (r : Row) (opts : Opts.t) :
  template "" = "" -> stripAnsi "" = "" -> width "" = 0%nat ->
  absent (row_left r) -> absent (row_right r) ->
  Opts.multiline opts = false ->
  renderList (xs ++ r :: ys)%list opts = renderList (xs ++ ys)%list opts
  /\ renderMultiline opts (map template_row (xs ++ r :: ys)%list)
     = renderMultiline opts (map template_row (xs ++ ys)%list).
Proof.
  intros Ht Hs Hw Hl Hr Hm.
  assert (Hrow : template_row r = ("", "")).
  { unfold template_row, renderTemplate.
    destruct Hl as [-> | ->], Hr as [-> | ->]; now rewrite Ht. }
  rewrite !(renderList_rows opts _ Hm), !map_app. cbn [map]. rewrite Hrow.
  split; [|apply renderMultiline_blank].
  unfold render_rows, call_renderMultiline.
  rewrite renderMultiline_blank, (maxLength_of_blank _ _ Hw), Hm.
  pose proof (compact_loop_blank opts
                (maxLength_of (map template_row xs ++ map template_row ys)%list)
                init (map template_row xs) (map template_row ys) Hs) as H.
  destruct (compact_loop _ _ _ (_ ++ _ :: _)%list) as [a| |e],
           (compact_loop _ _ _ (_ ++ _)%list) as [b| |e'];
    cbn in H; try discriminate; try reflexivity.
  - injection H as ->. reflexivity.
  - injection H as ->. reflexivity.
Qed.

Lemma absent_row_emits_nothing_witness :
  renderList (D := Ref.deps) ([row2 "a" "x"] ++ nothing :: [row2 "b" "y"])%list o80
  = renderList (D := Ref.deps) ([row2 "a" "x"] ++ [row2 "b" "y"])%list o80
  /\ renderMultiline (D := Ref.deps) o80
       (map (template_row (D := Ref.deps)) ([row2 "a" "x"] ++ nothing :: [row2 "b" "y"])%list)
     = renderMultiline (D := Ref.deps) o80
         (map (template_row (D := Ref.deps)) ([row2 "a" "x"] ++ [row2 "b" "y"])%list).
Proof.
  apply (absent_row_emits_nothing (D := Ref.deps) [row2 "a" "x"] [row2 "b" "y"] nothing o80).
  - reflexivity.
  - reflexivity.
  - reflexivity.
  - left. reflexivity.
  - right. reflexivity.
  - reflexivity.
Defined.

(** ** The rows of compact mode (C6, C7) *)

Lemma list_max_In (x : nat) (l : list nat) : In x l -> (x <= list_max l)%nat.
Proof.
  intros H. pose proof (proj1 (list_max_le l (list_max l)) (Nat.le_refl _)) as Hall.
  rewrite Forall_forall in Hall. now apply Hall.
Qed.

(** A one-line label that stripping does not widen fits the label column of
    the list it belongs to. *)
Lemma label_fits_of_single_line {D : Deps} (opts : Opts.t)
      (rows : list (string * string)) (row : string * string) :
  In row rows ->
  single_line (fst row) = true ->
  (width (strip opts (fst row)) <= width (fst row))%nat ->
  label_fits opts (maxLength_of rows) row.
Proof.
  intros Hin Hone Hstrip _. unfold maxLength_of.
  rewrite widestLine_join by (destruct rows; [contradiction|discriminate]).
  assert (width (fst row) <= list_max (map widestLine (map fst rows)))%nat.
  { rewrite <- (widestLine_single_line _ Hone).
    apply list_max_In. now do 2 apply in_map. }
  lia.
Qed.

(** When the labels fit, the rows are rendered without [opts.multiline]. *)
Lemma render_rows_total {D : Deps} (rows : list (string * string)) (opts : Opts.t) :
  Opts.multiline opts = false ->
  Forall (label_fits opts (maxLength_of rows)) rows ->
  exists s, render_rows opts rows = Ok s.
Proof.
  intros Hm Hfit. unfold render_rows, call_renderMultiline. rewrite Hm.
  pose proof (fun e => compact_loop_never_raises opts _ init _ e Hfit) as Hno.
  destruct (compact_loop _ _ _ _) as [st| |e]; eauto.
  now destruct (Hno e).
Qed.

Lemma renderList_total {D : Deps} (input : list Row) (opts : Opts.t) :
  Opts.multiline opts = false ->
  Forall (label_fits opts (maxLength_of (map template_row input))) (map template_row input) ->
  exists s, renderList input opts = Ok s.
Proof.
  intros Hm Hfit. rewrite (renderList_rows opts input Hm). now apply render_rows_total.
Qed.

(** C6: in compact mode, a row whose description is present and wraps to a
    single line that fits the description column is rendered as the padded
    label followed by that line, and its display width is at most
    [maxWidth].  The label is assumed to fit the padded label column, and the
    width of the row to be the sum of the widths of its three parts. *)
Theorem single_line_row_within_maxWidth {D : Deps} (opts : Opts.t) (maxLength : nat)
        (st : LoopState) (left_ right_ first : string) :
  JS.truthy right_ = true ->
  wrapped_lines opts maxLength right_ = [first] ->
  (Z.of_nat (width first) <= desc_cols opts maxLength)%Z ->
  (width (strip opts left_) <= maxLength + 2)%nat ->
  width (strip opts left_
         ++ JS.replicate (maxLength + 2 - width (strip opts left_)) " " ++ first)
  = (width (strip opts left_) + (maxLength + 2 - width (strip opts left_)) + width first)%nat ->
  exists row,
    loop_body opts maxLength st (left_, right_)
    = Continue {| output := flush st; spacer := spacer st; cur := row |}
    /\ row = strip opts left_
             ++ JS.replicate (maxLength + 2 - width (strip opts left_)) " " ++ first
    /\ (Z.of_nat (width row) <= Opts.maxWidth opts)%Z.
Proof.
  intros Hr Hone Hfirst Hfit Hadd.
  eexists. split; [|split; [reflexivity|]].
  - rewrite (loop_body_cases opts maxLength st (left_, right_)) by (intros _; exact Hfit).
    unfold overflows, row_wraps, row_text. cbn [fst snd]. rewrite Hr, Hone. cbn.
    now rewrite append_nil_r.
  - rewrite Hadd. unfold desc_cols in Hfirst. lia.
Qed.

Lemma single_line_row_within_maxWidth_witness :
  exists row,
    loop_body (D := Ref.deps) o24 10 init ("-h, --help", "show help")
    = Continue {| output := ""; spacer := JS.nl; cur := row |}
    /\ row = "-h, --help  show help"
    /\ (Z.of_nat (width (Deps := Ref.deps) row) <= 24)%Z.
Proof.
  apply (single_line_row_within_maxWidth (D := Ref.deps) o24 10 init
           "-h, --help" "show help" "show help").
  - reflexivity.
  - vm_compute. reflexivity.
  - vm_compute. discriminate.
  - vm_compute. lia.
  - vm_compute. reflexivity.
Defined.

Lemma map_widestLine_single {D : Deps} (ls : list string) :
  Forall (fun l => single_line l = true) ls -> map widestLine ls = map width ls.
Proof.
  induction 1 as [|l ls Hl _ IH]; [reflexivity|].
  cbn [map]. now rewrite IH, (widestLine_single_line l Hl).
Qed.

(** The label column is as wide as the widest line of the present labels,
    which is the widest label when the labels are one line each; when the
    label of a row with a description fits the padded column and the
    description does not overflow, the row text that the loop builds is the
    label, spaces up to a width of [maxLength + 2], the first wrapped line of
    the description, and the remaining lines indented by [maxLength + 2]. *)
Theorem label_column_layout {D : Deps} (input : list Row) (opts : Opts.t)
        (st : LoopState) (row : string * string) :
  width "" = 0%nat ->
  JS.truthy (snd row) = true ->
  label_fits opts (maxLength_of (map template_row input)) row ->
  overflows opts (maxLength_of (map template_row input)) row = false ->
  let labels := filter JS.truthy (map fst (map template_row input)) in
  let maxLength := maxLength_of (map template_row input) in
  let label := strip opts (fst row) in
  let parts := wrapped_lines opts maxLength (snd row) in
  maxLength = list_max (map widestLine labels)
  /\ (Forall (fun l => single_line l = true) labels ->
      maxLength = list_max (map width labels))
  /\ exists pad sp,
      loop_body opts maxLength st row
      = Continue {| output := flush st;
                    spacer := sp;
                    cur := label ++ JS.replicate pad " " ++ hd "undefined" parts
                                 ++ match tl parts with
                                    | [] => ""
                                    | rest =>
                                        JS.nl ++ indent (JS.join JS.nl rest) (maxLength + 2)
                                    end |}
      /\ (width label + pad = maxLength + 2)%nat.
Proof.
  intros Hw Hr Hfit Hov labels maxLength label parts.
  assert (Hmax : maxLength = list_max (map widestLine labels)).
  { unfold maxLength, labels, maxLength_of.
    now rewrite widestLine_join_all, list_max_truthy. }
  split; [exact Hmax|]. split.
  - intros Hone. now rewrite Hmax, map_widestLine_single.
  - exists (maxLength + 2 - width label)%nat. eexists. split.
    + rewrite (loop_body_cases opts maxLength st row Hfit). fold maxLength in Hov.
      rewrite Hov. unfold row_text. rewrite Hr. reflexivity.
    + specialize (Hfit Hr). fold maxLength label in Hfit. lia.
Qed.

Lemma label_column_layout_witness :
  10%nat = list_max (map (widestLine (D := Ref.deps)) ["--force"; "-h, --help"])
  /\ (Forall (fun l => single_line l = true) ["--force"; "-h, --help"] ->
      10%nat = list_max (map (width (Deps := Ref.deps)) ["--force"; "-h, --help"]))
  /\ exists pad sp,
      loop_body (D := Ref.deps) o24 10 init ("--force", "Overwrite existing files")
      = Continue {| output := "";
                    spacer := sp;
                    cur := "--force" ++ JS.replicate pad " " ++ "Overwrite"
                                     ++ JS.nl
                                     ++ lines ["            existing"; "            files"] |}
      /\ (7 + pad = 12)%nat.
Proof.
  apply (label_column_layout (D := Ref.deps) flags o24 init
           ("--force", "Overwrite existing files")).
  - reflexivity.
  - reflexivity.
  - intros _. vm_compute. lia.
  - vm_compute. reflexivity.
Defined.

(** C7 on a label of two lines, [ab] and [c], with a description of two
    lines: the label column is two columns wide, the widest line, while
    [string-width] counts the three characters of the label, so the padding
    is [2 - 3 + 2 = 1] space.  The description starts in column 2 of the
    last label line, not in column [maxLength + 2 = 4] where its second line
    is indented to: the two columns are not aligned. *)
Theorem two_line_label_misaligns :
  maxLength_of (D := Ref.deps) (map (template_row (D := Ref.deps)) ragged_label) = 2%nat
  /\ width (Deps := Ref.deps) (lines ["ab"; "c"]) = 3%nat
  /\ renderList (D := Ref.deps) ragged_label o80
     = Ok (lines ["ab"; "c hello"; "    world"]).
Proof. repeat split; vm_compute; reflexivity. Qed.

(** ** The stacked mode (C2) *)

(** A row with both sides present, alone in a stacked list: the label is
    wrapped to [maxWidth], the description to [maxWidth - 2] and indented by
    four columns. *)
Lemma renderMultiline_single {D : Deps} (opts : Opts.t) (left_ right_ : string) :
  JS.truthy left_ = true -> JS.truthy right_ = true ->
  renderMultiline opts [(left_, right_)]
  = JS.trim (wrap (JS.trim (strip opts left_)) (Opts.maxWidth opts)
             ++ JS.nl
             ++ indent (wrap (JS.trim (strip opts right_)) (Opts.maxWidth opts - 2)) 4
             ++ JS.nl ++ JS.nl).
Proof.
  intros Hl Hr. unfold renderMultiline. cbn [fold_left multiline_body].
  rewrite Hl, Hr. cbn [negb andb]. now rewrite !append_assoc.
Qed.

(** C2 at [maxWidth = 10]: the list falls back to stacked mode, where the
    first line of the description, [ab cd ef], eight columns wide, is not
    wrapped to [maxWidth - 4 = 6] columns but left whole, as it fits
    [maxWidth - 2]; indented by four, it is twelve columns wide. *)
Theorem stacked_description_wrapped_at_maxWidth_minus_2 :
  renderList (D := Ref.deps) eight_wide o10
  = Ok (lines ["L"; "    ab cd ef"; "    2"; "    3"; "    4"; "    5"; "    6"])
  /\ width (Deps := Ref.deps) "    ab cd ef" = 12%nat
  /\ Ref.indent (Ref.wrap "ab cd ef" (10 - 2)) 4 = "    ab cd ef"
  /\ Ref.indent (Ref.wrap "ab cd ef" (10 - 4)) 4 = lines ["    ab cd "; "    ef"].
Proof. repeat split; vm_compute; reflexivity. Qed.

(** ** Markdown (C4, C5) *)

(** The underline of a markdown title has the width of the title as given,
    before template substitution. *)
Lemma renderMarkdown_title {D : Deps} (t : option string) :
  renderMarkdown {| title := t; sections := [] |}
  = Ok (JS.trim (lines [stripAnsi (renderTemplate t);
                        JS.replicate (width_of_title t) "-";
                        ""])).
Proof.
  unfold renderMarkdown, JS.repeat. cbn [title sections mapM bind].
  destruct (Z.ltb_spec (Z.of_nat (width_of_title t)) 0) as [H|_]; [lia|].
  cbn [bind]. now rewrite Nat2Z.id.
Qed.

(** C4 on a title that interpolates [config.bin]: the rendered title is
    [mycli], five columns wide, and the underline has the seventeen dashes of
    the template text. *)
Theorem underline_follows_raw_title :
  renderMarkdown (D := Ref.deps) templated_title
  = Ok (lines ["mycli"; "-----------------"])
  /\ width (Deps := Ref.deps)
           (Ref.stripAnsi (renderTemplate (D := Ref.deps) (title templated_title)))
     = 5%nat
  /\ width_of_title (D := Ref.deps) (title templated_title) = 17%nat.
Proof. repeat split; vm_compute; reflexivity. Qed.

(** The heading line of a markdown section is the heading, capitalized,
    between asterisks: it does not go through [stripAnsi]. *)
Lemma markdown_section_heading {D : Deps} (s : Section_) (body : string) :
  markdown_body s = Ok body ->
  exists rest,
    markdown_section s = Ok ("**" ++ capitalize (heading s) ++ "**" ++ JS.nl ++ rest).
Proof.
  intros Hb. unfold markdown_section. rewrite Hb. cbn [bind].
  set (b := match type s with Some code => _ | _ => _ end).
  assert (Hb' : exists b', b = String JS.LF b').
  { unfold markdown_body in Hb. subst b.
    destruct (type s) as [[|]|]; try (eexists; reflexivity);
      destruct (body_length _ =? 0)%nat;
      try (destruct (first_isArray _); [destruct (renderList _ _); [|discriminate]|]);
      cbn in Hb; injection Hb as <-; eexists; reflexivity. }
  destruct Hb' as [b' ->]. exists (String JS.LF b' ++ JS.nl).
  unfold JS.compact, JS.truthy. cbn. now rewrite !append_assoc.
Qed.

(** C5 on a section whose heading is styled: the heading goes through
    [capitalize] only, and the markdown output holds its escape sequences. *)
Theorem markdown_keeps_heading_styling :
  exists out,
    renderMarkdown (D := Ref.deps) styled_heading = Ok out
    /\ out = lines ["mycli"; "-----"; "";
                    "**" ++ Ref.bold "options" ++ "**"; ""; "none"]
    /\ has_escape out = true
    /\ Ref.stripAnsi out <> out.
Proof.
  eexists. split; [vm_compute; reflexivity|].
  split; [vm_compute; reflexivity|].
  split; [vm_compute; reflexivity|].
  vm_compute. discriminate.
Qed.

(** ** Exceptions (C9) *)

(** C9: [renderList] of the empty list is the empty string, but a label of
    two lines of three columns in a row with a description is six columns
    wide in a label column of three: the padding count is
    [3 - 6 + 2 = -1], [repeat] throws, and so do the three renderers. *)
Theorem two_line_label_throws :
  (forall (D : Deps) (opts : Opts.t), renderList [] opts = Ok "")
  /\ maxLength_of (D := Ref.deps) (map (template_row (D := Ref.deps)) two_line_label) = 3%nat
  /\ width (Deps := Ref.deps) (lines ["abc"; "def"]) = 6%nat
  /\ renderList (D := Ref.deps) two_line_label o80 = Throw RangeError
  /\ renderScreen (D := Ref.deps) two_line_label_article = Throw RangeError
  /\ renderMarkdown (D := Ref.deps) two_line_label_article = Throw RangeError.
Proof. repeat split; vm_compute; reflexivity. Qed.

(** ** The dispatch on the body of a section (C10) *)

Lemma mapM_ext_map {A B : Type} (f : A -> result B) (g : A -> A) (l : list A) :
  (forall a, f (g a) = f a) -> mapM f (map g l) = mapM f l.
Proof.
  intros H. induction l as [|a l IH]; [reflexivity|].
  cbn [map mapM]. now rewrite H, IH.
Qed.

Lemma screen_section_empty_list {D : Deps} (s : Section_) :
  screen_section (empty_list_as_prose s) = screen_section s.
Proof.
  destruct s as [h t b]. unfold empty_list_as_prose. cbn [body].
  destruct b as [x|l|[|r rows]]; reflexivity.
Qed.

Lemma markdown_section_empty_list {D : Deps} (s : Section_) :
  markdown_section (empty_list_as_prose s) = markdown_section s.
Proof.
  destruct s as [h t b]. unfold empty_list_as_prose. cbn [body].
  destruct b as [x|l|[|r rows]]; reflexivity.
Qed.

Lemma mapM_ext {A B : Type} (f g : A -> result B) (l : list A) :
  (forall a, f a = g a) -> mapM f l = mapM g l.
Proof.
  intros H. induction l as [|a l IH]; [reflexivity|].
  cbn [mapM]. now rewrite H, IH.
Qed.

Lemma screen_body_by_shape {D : Deps} (s : Section_) :
  screen_body s
  = body_by_shape (fun rows => renderList rows screen_opts)
                  (fun text => wrap (renderTemplate (Some text)) (stdtermwidth - 2))
                  (body s).
Proof.
  unfold screen_body. destruct (body s) as [[|c x]|[|l ls]|[|r rows]]; reflexivity.
Qed.

Lemma markdown_body_by_shape {D : Deps} (s : Section_) :
  markdown_body s
  = (text <- body_by_shape
               (fun rows => list <- renderList rows markdown_opts ;;
                            Ok ("```" ++ JS.nl ++ list ++ JS.nl ++ "```"))
               (fun text => wrap (stripAnsi (renderTemplate (Some text))) 98)
               (body s) ;;
     Ok (JS.nl ++ text)).
Proof.
  unfold markdown_body. destruct (body s) as [[|c x]|[|l ls]|[|r rows]]; try reflexivity.
  cbn [body_length length Nat.eqb first_isArray as_rows body_by_shape].
  change (Opts.Build_t (100 - 2) false true) with markdown_opts.
  destruct (renderList (r :: rows) markdown_opts); reflexivity.
Qed.

Lemma screen_section_by_shape {D : Deps} (s : Section_) :
  screen_section s
  = (body <- body_by_shape
               (fun rows => renderList rows screen_opts)
               (fun text => wrap (renderTemplate (Some text)) (stdtermwidth - 2))
               (body s) ;;
     Ok (JS.join JS.nl (JS.compact [bold (toUpperCase (heading s)); indent body 2]))).
Proof. unfold screen_section. now rewrite screen_body_by_shape. Qed.

Lemma markdown_section_by_shape {D : Deps} (s : Section_) :
  markdown_section s
  = (text <- body_by_shape
               (fun rows => list <- renderList rows markdown_opts ;;
                            Ok ("```" ++ JS.nl ++ list ++ JS.nl ++ "```"))
               (fun text => wrap (stripAnsi (renderTemplate (Some text))) 98)
               (body s) ;;
     Ok (JS.join JS.nl
           (JS.compact
              ["**" ++ capitalize (heading s) ++ "**";
               match type s with
               | Some code =>
                   JS.nl ++ "```sh-session" ++ (JS.nl ++ text) ++ JS.nl ++ "```"
               | _ => JS.nl ++ text
               end])
         ++ JS.nl)).
Proof.
  unfold markdown_section. rewrite markdown_body_by_shape.
  destruct (body_by_shape _ _ (body s)); reflexivity.
Qed.

(** C10: [renderScreen] and [renderMarkdown] hand the body of a section to
    [renderList] exactly when it is not empty and its first element is an
    array, that is when it is a list of at least one row: what they return
    is what the dispatch on the shape of the bodies gives, with [renderList]
    on such a list, the wrapper on prose that is not empty and nothing on an
    empty body.  So an article renders the same when its empty lists of rows
    are replaced by empty lists of prose lines. *)
Theorem body_dispatch {D : Deps} (article : Article) :
  (forall b : Body,
      negb (body_length b =? 0)%nat && first_isArray b
      = match b with PairList (_ :: _) => true | _ => false end)
  /\ renderScreen article
     = (secs <- mapM (fun s =>
                        body <- body_by_shape
                                  (fun rows => renderList rows screen_opts)
                                  (fun text => wrap (renderTemplate (Some text))
                                                    (stdtermwidth - 2))
                                  (body s) ;;
                        Ok (JS.join JS.nl
                              (JS.compact [bold (toUpperCase (heading s)); indent body 2])))
                     (sections article) ;;
        Ok (JS.join (JS.nl ++ JS.nl)
              (JS.compact (renderTemplate (title article) :: secs))))
  /\ renderMarkdown article
     = (underline <- JS.repeat "-" (Z.of_nat (width_of_title (title article))) ;;
        secs <- mapM (fun s =>
                        text <- body_by_shape
                                  (fun rows =>
                                     list <- renderList rows markdown_opts ;;
                                     Ok ("```" ++ JS.nl ++ list ++ JS.nl ++ "```"))
                                  (fun text => wrap (stripAnsi (renderTemplate (Some text))) 98)
                                  (body s) ;;
                        Ok (JS.join JS.nl
                              (JS.compact
                                 ["**" ++ capitalize (heading s) ++ "**";
                                  match type s with
                                  | Some code =>
                                      JS.nl ++ "```sh-session" ++ (JS.nl ++ text)
                                            ++ JS.nl ++ "```"
                                  | _ => JS.nl ++ text
                                  end])
                            ++ JS.nl))
                     (sections article) ;;
        Ok (JS.trim (JS.join JS.nl
                       (stripAnsi (renderTemplate (title article))
                          :: underline :: "" :: secs))))
  /\ renderScreen (empty_lists_as_prose article) = renderScreen article
  /\ renderMarkdown (empty_lists_as_prose article) = renderMarkdown article.
Proof.
  split; [|split; [|split; [|split]]].
  - intros [s|l|[|r rows]]; cbn; try reflexivity; apply andb_false_r.
  - unfold renderScreen.
    now rewrite (mapM_ext _ _ (sections article) screen_section_by_shape).
  - unfold renderMarkdown.
    now rewrite (mapM_ext _ _ (sections article) markdown_section_by_shape).
  - unfold renderScreen, empty_lists_as_prose. cbn [title sections].
    now rewrite (mapM_ext_map screen_section _ _ screen_section_empty_list).
  - unfold renderMarkdown, empty_lists_as_prose. cbn [title sections].
    now rewrite (mapM_ext_map markdown_section _ _ markdown_section_empty_list).
Qed.

(** ** Trimming *)

Lemma trimEnd_cons (c : ascii) (r : string) :
  JS.trimEnd (String c r)
  = match JS.trimEnd r with
    | "" => if JS.is_space c then "" else String c ""
    | r' => String c r'
    end.
Proof. reflexivity. Qed.

Lemma trimEnd_idempotent (s : string) : JS.trimEnd (JS.trimEnd s) = JS.trimEnd s.
Proof.
  induction s as [|c r IH]; [reflexivity|].
  rewrite trimEnd_cons. destruct (JS.trimEnd r) as [|c' r'] eqn:E.
  - destruct (JS.is_space c) eqn:Hc; [reflexivity|].
    rewrite trimEnd_cons. cbn [JS.trimEnd]. now rewrite Hc.
  - rewrite trimEnd_cons, IH. reflexivity.
Qed.

Lemma trimStart_head (s : string) :
  JS.trimStart s = ""
  \/ exists c r, JS.trimStart s = String c r /\ JS.is_space c = false.
Proof.
  induction s as [|c r IH]; [now left|].
  cbn [JS.trimStart]. destruct (JS.is_space c) eqn:Hc; [exact IH|].
  right. now exists c, r.
Qed.

Lemma trimStart_trimEnd (c : ascii) (r : string) :
  JS.is_space c = false ->
  JS.trimStart (JS.trimEnd (String c r)) = JS.trimEnd (String c r).
Proof.
  intros Hc. cbn [JS.trimEnd].
  destruct (JS.trimEnd r); [rewrite Hc|]; cbn [JS.trimStart]; now rewrite Hc.
Qed.

Lemma trim_idempotent (s : string) : JS.trim (JS.trim s) = JS.trim s.
Proof.
  unfold JS.trim. destruct (trimStart_head s) as [->|(c & r & -> & Hc)]; [reflexivity|].
  rewrite (trimStart_trimEnd c r Hc). apply trimEnd_idempotent.
Qed.

(** ** How [renderList] ends *)

Section Decide.
Context {D : Deps}.
Variable opts : Opts.t.
Variable maxLength : nat.

Lemma loop_body_raises (st : LoopState) (row : string * string) :
  JS.truthy (snd row) = true ->
  (maxLength + 2 < width (strip opts (fst row)))%nat ->
  loop_body opts maxLength st row = Raise RangeError.
Proof.
  destruct row as [l r]. cbn [fst snd]. intros Hr Hwide.
  unfold loop_body. rewrite Hr. cbn [negb]. unfold JS.repeat.
  destruct (Z.ltb_spec (Z.of_nat maxLength - Z.of_nat (width (strip opts l)) + 2) 0);
    [reflexivity|lia].
Qed.

Lemma compact_loop_mode (st : LoopState) (rows : list (string * string)) :
  match layout_mode opts maxLength rows with
  | Compact =>
      exists st',
        compact_loop opts maxLength st rows = Continue st'
        /\ flush st'
           = flush st
             ++ emitted (spacer st)
                  (map (fun row => (row_text opts maxLength row, row_wraps opts maxLength row))
                       rows)
  | Stacked => compact_loop opts maxLength st rows = ReturnMultiline
  | Throws => compact_loop opts maxLength st rows = Raise RangeError
  end.
Proof.
  revert st. induction rows as [|row rows IH]; intros st.
  - cbn. exists st. split; [reflexivity|now rewrite append_nil_r].
  - cbn [layout_mode compact_loop].
    destruct (JS.truthy (snd row)) eqn:Hr.
    + destruct (Nat.ltb_spec (maxLength + 2) (width (strip opts (fst row)))) as [Hw|Hw].
      * now rewrite (loop_body_raises st row Hr Hw).
      * rewrite (loop_body_cases opts maxLength st row (fun _ => Hw)).
        destruct (overflows opts maxLength row) eqn:Hov; [reflexivity|].
        set (st1 := {| output := flush st;
                       spacer := if row_wraps opts maxLength row
                                 then JS.nl ++ JS.nl else spacer st;
                       cur := row_text opts maxLength row |}).
        specialize (IH st1). destruct (layout_mode opts maxLength rows); try exact IH.
        destruct IH as (st' & Hrun & Hflush). exists st'. split; [exact Hrun|].
        rewrite Hflush. cbn [map emitted]. unfold flush at 1, st1. cbn [cur output spacer].
        destruct (JS.truthy (row_text opts maxLength row));
          [now rewrite !append_assoc|reflexivity].
    + assert (Hfit : label_fits opts maxLength row).
      { intros H. rewrite Hr in H. discriminate. }
      rewrite (loop_body_cases opts maxLength st row Hfit).
      assert (Hov : overflows opts maxLength row = false).
      { unfold overflows. now rewrite Hr. }
      assert (Hwr : row_wraps opts maxLength row = false).
      { unfold row_wraps. now rewrite Hr. }
      rewrite Hov, Hwr.
      set (st1 := {| output := flush st; spacer := spacer st;
                     cur := row_text opts maxLength row |}).
      specialize (IH st1). destruct (layout_mode opts maxLength rows); try exact IH.
      destruct IH as (st' & Hrun & Hflush). exists st'. split; [exact Hrun|].
      rewrite Hflush. cbn [map emitted]. rewrite Hwr.
      unfold flush at 1, st1. cbn [cur output spacer].
      destruct (JS.truthy (row_text opts maxLength row));
        [now rewrite !append_assoc|reflexivity].
Qed.

End Decide.

(** X1: [renderList] in full.  The empty list gives the empty string.  On
    another list, with [opts.multiline] the call of [renderMultiline] throws
    a [ReferenceError].  Otherwise the rows with a description are read in
    order: the first one whose label is wider than [maxLength + 2] columns
    makes it throw a [RangeError], the first one whose description has more
    than four lines after its first sends the whole list to the stacked
    text, and when there is neither the result is the compact text with its
    separators. *)
Theorem renderList_by_mode {D : Deps} (input : list Row) (opts : Opts.t) :
  renderList input opts
  = if Opts.multiline opts then
      match input with
      | [] => Ok ""
      | _ :: _ => Throw ReferenceError
      end
    else
      match layout_mode opts (maxLength_of (map template_row input)) (map template_row input) with
      | Throws => Throw RangeError
      | Stacked => Ok (renderMultiline opts (map template_row input))
      | Compact =>
          Ok (JS.trim
                (emitted JS.nl
                   (map (fun row =>
                           (row_text opts (maxLength_of (map template_row input)) row,
                            row_wraps opts (maxLength_of (map template_row input)) row))
                        (map template_row input))))
      end.
Proof.
  destruct (Opts.multiline opts) eqn:Hm.
  - destruct input as [|r input]; [reflexivity|]. unfold renderList. now rewrite Hm.
  - rewrite (renderList_rows opts input Hm). unfold render_rows. rewrite Hm.
    pose proof (compact_loop_mode opts (maxLength_of (map template_row input)) init
                  (map template_row input)) as H.
    destruct (layout_mode _ _ _).
    + destruct H as (st & -> & Hflush). now rewrite Hflush.
    + now rewrite H.
    + now rewrite H.
Qed.

(** X2: whatever [renderList] returns is trimmed: it neither starts nor ends
    with white space or a line feed. *)
Theorem renderList_trimmed {D : Deps} (input : list Row) (opts : Opts.t) (out : string) :
  renderList input opts = Ok out -> JS.trim out = out.
Proof.
  destruct input as [|r input]; [intros H; injection H as <-; reflexivity|].
  unfold renderList, call_renderMultiline, renderMultiline.
  destruct (Opts.multiline opts); [discriminate|].
  destruct (compact_loop _ _ _ _); intros H; try discriminate;
    injection H as <-; apply trim_idempotent.
Qed.

(** X3: so is what [renderMarkdown] returns. *)
Theorem renderMarkdown_trimmed {D : Deps} (article : Article) (out : string) :
  renderMarkdown article = Ok out -> JS.trim out = out.
Proof.
  unfold renderMarkdown.
  destruct (JS.repeat _ _); cbn [bind]; [|discriminate].
  destruct (mapM _ _); cbn [bind]; [|discriminate].
  intros H. injection H as <-. apply trim_idempotent.
Qed.

(** X4: once template substitution has returned the rows, and without
    [opts.multiline], the rest of [renderList] returns a string when every
    label is one line and is not widened by the stripping of its styling:
    neither the padding of a label nor the fallback throws. *)
Theorem one_line_labels_are_rendered {D : Deps} (rows : list (string * string))
        (opts : Opts.t) :
  Opts.multiline opts = false ->
  Forall (fun row => single_line (fst row) = true) rows ->
  Forall (fun row => (width (strip opts (fst row)) <= width (fst row))%nat) rows ->
  exists out, render_rows opts rows = Ok out.
Proof.
  intros Hm Hone Hstrip. apply render_rows_total; [exact Hm|].
  rewrite Forall_forall in *. intros row Hin.
  apply label_fits_of_single_line; auto.
Qed.

Lemma one_line_labels_are_rendered_witness :
  exists out,
    render_rows (D := Ref.deps) o24
      [("--force", "Overwrite existing files"); ("-h, --help", "show help")] = Ok out.
Proof.
  apply (one_line_labels_are_rendered (D := Ref.deps)
           [("--force", "Overwrite existing files"); ("-h, --help", "show help")] o24).
  - reflexivity.
  - forall_by ltac:(reflexivity).
  - forall_by ltac:(vm_compute; lia).
Defined.

Lemma renderList_trimmed_witness :
  JS.trim (lines ["a  1"; "   2"; ""; "h"; ""; "b  y"])
  = lines ["a  1"; "   2"; ""; "h"; ""; "b  y"].
Proof.
  apply (renderList_trimmed (D := Ref.deps) with_header o80). vm_compute. reflexivity.
Defined.

Lemma renderMarkdown_trimmed_witness :
  JS.trim (lines ["mycli"; "-----------------"]) = lines ["mycli"; "-----------------"].
Proof.
  apply (renderMarkdown_trimmed (D := Ref.deps) templated_title). vm_compute. reflexivity.
Defined.

(** ** Lists of labels *)

Lemma trim_after_LF (s : string) : JS.trim (JS.nl ++ s) = JS.trim s.
Proof. reflexivity. Qed.

Lemma emitted_unwrapped (l : list string) :
  emitted JS.nl (map (fun t => (t, false)) l)
  = match JS.compact l with
    | [] => ""
    | shown => JS.nl ++ JS.join JS.nl shown
    end.
Proof.
  induction l as [|t l IH]; [reflexivity|].
  cbn [map emitted JS.compact filter]. rewrite IH. fold (JS.compact l).
  destruct (JS.truthy t); [|reflexivity].
  destruct (JS.compact l) as [|t' shown]; [now rewrite append_nil_r|].
  rewrite join_cons2. now rewrite !append_assoc.
Qed.

(** X5: a list in which no row has a description is rendered, whatever its
    labels, as the labels that are not blank, each trimmed, one per line. *)
Theorem renderList_of_labels {D : Deps} (input : list Row) (opts : Opts.t) :
  Opts.multiline opts = false ->
  Forall (fun row => JS.truthy (snd row) = false) (map template_row input) ->
  renderList input opts
  = Ok (JS.trim
          (JS.join JS.nl
             (JS.compact
                (map (fun row => JS.trim (strip opts (fst row))) (map template_row input))))).
Proof.
  intros Hm Hno. rewrite (renderList_rows opts input Hm). unfold render_rows. rewrite Hm.
  set (rows := map template_row input) in *.
  set (m := maxLength_of rows).
  assert (Hfit : Forall (label_fits opts m) rows).
  { eapply Forall_impl; [|exact Hno]. intros row Hr H. rewrite Hr in H. discriminate. }
  assert (Hov : Forall (fun row => overflows opts m row = false) rows).
  { eapply Forall_impl; [|exact Hno]. intros row Hr. unfold overflows. now rewrite Hr. }
  destruct (compact_loop_emitted opts m init rows Hfit Hov) as (st & -> & Hflush).
  rewrite Hflush. cbn [flush init cur output JS.truthy String.eqb negb append].
  assert (Hmap : map (fun row => (row_text opts m row, row_wraps opts m row)) rows
                 = map (fun t => (t, false))
                       (map (fun row => JS.trim (strip opts (fst row))) rows)).
  { rewrite map_map. apply map_ext_in. intros row Hin.
    rewrite Forall_forall in Hno. specialize (Hno row Hin).
    unfold row_text, row_wraps. now rewrite Hno. }
  rewrite Hmap, emitted_unwrapped.
  destruct (JS.compact _); [reflexivity|]. now rewrite trim_after_LF.
Qed.

Lemma renderList_of_labels_witness :
  renderList (D := Ref.deps) labels_only o80 = Ok (JS.trim (lines ["build"; "test"])).
Proof.
  apply (renderList_of_labels (D := Ref.deps) labels_only o80).
  - reflexivity.
  - forall_by ltac:(reflexivity).
Defined.

(** ** The rows of the stacked mode *)

Lemma multiline_body_appends {D : Deps} (opts : Opts.t) (out : string) (row : string * string) :
  multiline_body opts out row = out ++ multiline_body opts "" row.
Proof.
  destruct row as [l r]. unfold multiline_body.
  destruct (JS.truthy l), (JS.truthy r); cbn [negb andb];
    rewrite ?append_assoc, ?append_nil_r; reflexivity.
Qed.

Lemma stacked_fold_appends {D : Deps} (opts : Opts.t) (rows : list (string * string))
      (out : string) :
  fold_left (multiline_body opts) rows out = out ++ stacked_text opts rows.
Proof.
  unfold stacked_text. revert out. induction rows as [|row rows IH]; intros out.
  - cbn. now rewrite append_nil_r.
  - cbn [fold_left]. rewrite (IH (multiline_body opts out row)).
    rewrite (IH (multiline_body opts "" row)).
    rewrite (multiline_body_appends opts out row). apply append_assoc.
Qed.

(** X6: in stacked mode every row is laid out on its own: the text of a list
    is the text of its first part followed by the text of the rest, and the
    result is that text trimmed. *)
Theorem renderMultiline_app {D : Deps} (opts : Opts.t) (xs ys : list (string * string)) :
  stacked_text opts (xs ++ ys)%list = stacked_text opts xs ++ stacked_text opts ys
  /\ renderMultiline opts (xs ++ ys)%list
     = JS.trim (stacked_text opts xs ++ stacked_text opts ys).
Proof.
  assert (H : stacked_text opts (xs ++ ys)%list
              = stacked_text opts xs ++ stacked_text opts ys).
  { unfold stacked_text at 1. rewrite fold_left_app. apply stacked_fold_appends. }
  split; [exact H|]. unfold renderMultiline. fold (stacked_text opts (xs ++ ys)%list).
  now rewrite H.
Qed.

(** ** Rows as arrays *)

Lemma template_row_as_pair {D : Deps} (r : Row) : template_row (as_pair r) = template_row r.
Proof.
  unfold template_row, as_pair, renderTemplate. cbn [row_left row_right].
  destruct (row_left r), (row_right r); reflexivity.
Qed.

(** X7: [renderList] reads the first two elements of a row only, and reads a
    missing or [undefined] element as the empty string. *)
Theorem renderList_reads_pairs {D : Deps} (input : list Row) (opts : Opts.t) :
  renderList (map as_pair input) opts = renderList input opts.
Proof.
  destruct input as [|r input]; [reflexivity|].
  unfold renderList. cbn [map].
  now rewrite map_map, (map_ext _ _ template_row_as_pair), template_row_as_pair.
Qed.

(** ** Articles *)

Lemma join_compact_single (sep s : string) : JS.join sep (JS.compact [s]) = s.
Proof.
  unfold JS.compact. cbn [filter]. destruct (JS.truthy s) eqn:E; [reflexivity|].
  apply truthy_false in E. now subst s.
Qed.

Lemma compact_before_empty (s : string) : JS.compact [s; ""] = JS.compact [s].
Proof. unfold JS.compact. cbn [filter]. now destruct (JS.truthy s). Qed.

(** X8: an article without sections is rendered on the screen as its title
    after template substitution, and nothing else. *)
Theorem renderScreen_no_sections {D : Deps} (t : option string) :
  renderScreen {| title := t; sections := [] |} = Ok (renderTemplate t).
Proof.
  unfold renderScreen. cbn [sections title mapM bind]. now rewrite join_compact_single.
Qed.

(** X9: on the screen, a section with an empty body is its heading alone,
    upper-cased and in bold, when indenting nothing gives nothing. *)
Theorem screen_section_empty_body {D : Deps} (s : Section_) :
  indent "" 2 = "" ->
  body_length (body s) = 0%nat ->
  screen_section s = Ok (bold (toUpperCase (heading s))).
Proof.
  intros Hi Hlen. unfold screen_section, screen_body. rewrite Hlen. cbn [Nat.eqb bind].
  now rewrite Hi, compact_before_empty, join_compact_single.
Qed.

Lemma screen_section_empty_body_witness :
  screen_section (D := Ref.deps) no_body = Ok (Ref.bold "USAGE").
Proof.
  apply (screen_section_empty_body (D := Ref.deps) no_body); reflexivity.
Defined.

Lemma mapM_returns {A B : Type} (f : A -> result B) (l : list A) (bs : list B) :
  mapM f l = Ok bs -> Forall (fun a => exists b, f a = Ok b) l.
Proof.
  revert bs. induction l as [|a l IH]; intros bs; [constructor|].
  cbn [mapM]. destruct (f a) as [b|e] eqn:E; cbn [bind]; [|discriminate].
  destruct (mapM f l) as [bs'|e]; cbn [bind]; [|discriminate].
  intros _. constructor; [now exists b|now apply (IH bs')].
Qed.

Lemma screen_section_returns {D : Deps} (s : Section_) (out : string) :
  screen_section s = Ok out ->
  first_isArray (body s) = true ->
  exists text, renderList (as_rows (body s)) screen_opts = Ok text.
Proof.
  unfold screen_section, screen_body. fold screen_opts.
  destruct (body s) as [x|l|[|r rows]]; cbn [first_isArray]; try discriminate.
  cbn [body_length length Nat.eqb as_rows].
  destruct (renderList (r :: rows) screen_opts) as [text|e]; [eauto|discriminate].
Qed.

Lemma markdown_section_returns {D : Deps} (s : Section_) (out : string) :
  markdown_section s = Ok out ->
  first_isArray (body s) = true ->
  exists text, renderList (as_rows (body s)) markdown_opts = Ok text.
Proof.
  unfold markdown_section, markdown_body.
  destruct (body s) as [x|l|[|r rows]]; cbn [first_isArray]; try discriminate.
  cbn [body_length length Nat.eqb as_rows].
  change (Opts.Build_t (100 - 2) false true) with markdown_opts.
  destruct (renderList (r :: rows) markdown_opts) as [text|e]; [eauto|discriminate].
Qed.

(** X10: [renderScreen] and [renderMarkdown] do not swallow an exception of
    [renderList]: when they return, [renderList] has returned on the rows of
    every section whose body is a list. *)
Theorem renderers_return_with_renderList {D : Deps} (article : Article) :
  (forall out,
      renderScreen article = Ok out ->
      Forall (fun s => first_isArray (body s) = true ->
                       exists text, renderList (as_rows (body s)) screen_opts = Ok text)
             (sections article))
  /\ (forall out,
         renderMarkdown article = Ok out ->
         Forall (fun s => first_isArray (body s) = true ->
                          exists text, renderList (as_rows (body s)) markdown_opts = Ok text)
                (sections article)).
Proof.
  split; intros out.
  - unfold renderScreen.
    destruct (mapM screen_section (sections article)) as [secs|e] eqn:E;
      cbn [bind]; [intros _|discriminate].
    eapply Forall_impl; [|exact (mapM_returns _ _ _ E)].
    intros s [text Hs]. now apply (screen_section_returns s text).
  - unfold renderMarkdown. destruct (JS.repeat _ _); cbn [bind]; [|discriminate].
    destruct (mapM markdown_section (sections article)) as [secs|e] eqn:E;
      cbn [bind]; [intros _|discriminate].
    eapply Forall_impl; [|exact (mapM_returns _ _ _ E)].
    intros s [text Hs]. now apply (markdown_section_returns s text).
Qed.

Lemma renderers_return_with_renderList_witness :
  Forall (fun s => first_isArray (body s) = true ->
                   exists text,
                     renderList (D := Ref.deps) (as_rows (body s))
                       (screen_opts (D := Ref.deps)) = Ok text)
         (sections (RefHelp.rootArticle as_screen)).
Proof.
  apply (proj1 (renderers_return_with_renderList (D := Ref.deps)
                  (RefHelp.rootArticle as_screen))
               (lines ["mycli"; ""; Ref.bold "COMMANDS"; "  build  compile the project"])).
  vm_compute. reflexivity.
Defined.

(** ** The subject of [showHelp] *)

Lemma getHelpSubject_skip (pre rest : list string) :
  forallb skipped pre = true ->
  getHelpSubject (pre ++ rest)%list = getHelpSubject rest.
Proof.
  induction pre as [|a pre IH]; [reflexivity|].
  cbn [forallb app getHelpSubject]. unfold skipped at 1.
  intros H. apply andb_prop in H as [Ha Hpre]. apply andb_prop in Ha as [Hd Hs].
  apply negb_true_iff in Hd. rewrite Hd.
  destruct (prefix "-" a); [now apply IH|]. cbn [orb] in Hs. rewrite Hs. now apply IH.
Qed.

Lemma getHelpSubject_at_subject (s : string) (post : list string) :
  is_subject s = true -> getHelpSubject (s :: post) = Some s.
Proof.
  unfold is_subject. intros H. apply andb_prop in H as [H Hh]. apply andb_prop in H as [Hd Hp].
  apply negb_true_iff in Hd, Hp, Hh. cbn [getHelpSubject]. now rewrite Hd, Hp, Hh.
Qed.

(** X11: [getHelpSubject] returns an argument exactly when that argument is
    neither [--], nor an option, nor the word [help], and everything before
    it is an option other than [--] or the word [help]; what comes after it
    is not read. *)
Theorem getHelpSubject_Some (argv : list string) (s : string) :
  getHelpSubject argv = Some s
  <-> exists pre post,
        argv = (pre ++ s :: post)%list
        /\ forallb skipped pre = true
        /\ is_subject s = true.
Proof.
  split.
  - induction argv as [|a argv IH]; [discriminate|].
    cbn [getHelpSubject].
    destruct (a =? "--") eqn:Hd; [discriminate|].
    destruct (prefix "-" a) eqn:Hp.
    + intros H. destruct (IH H) as (pre & post & -> & Hpre & Hs).
      exists (a :: pre), post. repeat split; [|exact Hs].
      cbn [forallb]. unfold skipped at 1. now rewrite Hd, Hp, Hpre.
    + destruct (a =? "help") eqn:Hh.
      * intros H. destruct (IH H) as (pre & post & -> & Hpre & Hs).
        exists (a :: pre), post. repeat split; [|exact Hs].
        cbn [forallb]. unfold skipped at 1. now rewrite Hd, Hp, Hh, Hpre.
      * intros H. injection H as <-. exists [], argv. repeat split.
        unfold is_subject. now rewrite Hd, Hp, Hh.
  - intros (pre & post & -> & Hpre & Hs).
    rewrite (getHelpSubject_skip pre _ Hpre). now apply getHelpSubject_at_subject.
Qed.

(** X12: [getHelpSubject] returns [undefined] exactly when every argument is
    an option or the word [help], or when that holds of the arguments before
    a first [--]: nothing after [--] is taken for a subject. *)
Theorem getHelpSubject_None (argv : list string) :
  getHelpSubject argv = None
  <-> forallb skipped argv = true
      \/ exists pre post,
           argv = (pre ++ "--" :: post)%list /\ forallb skipped pre = true.
Proof.
  split.
  - induction argv as [|a argv IH]; [now left|].
    cbn [getHelpSubject].
    destruct (a =? "--") eqn:Hd.
    + intros _. right. apply String.eqb_eq in Hd. subst a. now exists [], argv.
    + assert (Hstep : skipped a = true -> getHelpSubject argv = None ->
                      forallb skipped (a :: argv) = true
                      \/ exists pre post,
                           (a :: argv) = (pre ++ "--" :: post)%list
                           /\ forallb skipped pre = true).
      { intros Ha H. destruct (IH H) as [Hall|(pre & post & -> & Hpre)].
        - left. cbn [forallb]. now rewrite Ha, Hall.
        - right. exists (a :: pre), post. split; [reflexivity|].
          cbn [forallb]. now rewrite Ha, Hpre. }
      destruct (prefix "-" a) eqn:Hp.
      * apply Hstep. unfold skipped. now rewrite Hd, Hp.
      * destruct (a =? "help") eqn:Hh; [|discriminate].
        apply Hstep. unfold skipped. now rewrite Hd, Hp, Hh.
  - intros [Hall|(pre & post & -> & Hpre)].
    + rewrite <- (app_nil_r argv). now rewrite (getHelpSubject_skip argv [] Hall).
    + now rewrite (getHelpSubject_skip pre _ Hpre).
Qed.

(** ** The runs of [showHelp] *)

Section Runs.
Context {D : Deps} {C : Collab}.
Variable opts : HelpOptions.

Lemma showHelp_root (argv : list string) :
  getHelpSubject argv = None \/ getHelpSubject argv = Some "" ->
  showHelp opts argv = shown opts (root opts).
Proof.
  unfold showHelp, shown, blank_line.
  intros [-> | ->]; cbn [JS.truthy String.eqb negb];
    destruct (root opts); cbn [info failure printed app];
    destruct (format opts) as [[| |]|]; reflexivity.
Qed.

Lemma showHelp_command (argv : list string) (s : string) :
  getHelpSubject argv = Some s -> s <> "" ->
  showHelp opts argv
  = match findCommand s with
    | None => {| printed := []; failure := Some (CommandNotFound s) |}
    | Some c => shown opts (command opts c)
    end.
Proof.
  unfold showHelp, shown, blank_line. intros -> Hs.
  apply String.eqb_neq in Hs. unfold JS.truthy. rewrite Hs. cbn [negb].
  destruct (findCommand s) as [c|]; [|reflexivity].
  destruct (command opts c); cbn [info failure printed app];
    destruct (format opts) as [[| |]|]; reflexivity.
Qed.

End Runs.

(** X13: a call of [showHelp] that throws has printed nothing; a call that
    returns has printed one text, followed by an empty line when the format
    is [screen] and by nothing otherwise, also for [man] and for no format
    at all, which are rendered as [screen] is. *)
Theorem showHelp_prints_once {D : Deps} {C : Collab} (opts : HelpOptions) (argv : list string) :
  match failure (showHelp opts argv) with
  | Some _ => printed (showHelp opts argv) = []
  | None => exists text, printed (showHelp opts argv) = Some text :: blank_line opts
  end.
Proof.
  assert (Hshown : forall r,
             match failure (shown opts r) with
             | Some _ => printed (shown opts r) = []
             | None => exists text, printed (shown opts r) = Some text :: blank_line opts
             end).
  { intros [text|e]; cbn; eauto. }
  destruct (getHelpSubject argv) as [s|] eqn:Hsub.
  - destruct (String.eqb_spec s "") as [->|Hs].
    + rewrite (showHelp_root opts argv (or_intror Hsub)). apply Hshown.
    + rewrite (showHelp_command opts argv s Hsub Hs).
      destruct (findCommand s); [apply Hshown|reflexivity].
  - rewrite (showHelp_root opts argv (or_introl Hsub)). apply Hshown.
Qed.

(** X14: when the arguments hold options and the word [help] only, or
    nothing else before a [--] or before an empty argument, [showHelp] prints
    the root help and does not look for a command. *)
Theorem showHelp_without_subject {D : Deps} {C : Collab} (opts : HelpOptions)
        (pre post : list string) :
  forallb skipped pre = true ->
  showHelp opts pre = shown opts (root opts)
  /\ showHelp opts (pre ++ "--" :: post)%list = shown opts (root opts)
  /\ showHelp opts (pre ++ "" :: post)%list = shown opts (root opts).
Proof.
  intros Hpre. repeat split; apply showHelp_root.
  - left. rewrite <- (app_nil_r pre). now rewrite (getHelpSubject_skip pre [] Hpre).
  - left. now rewrite (getHelpSubject_skip pre _ Hpre).
  - right. now rewrite (getHelpSubject_skip pre _ Hpre).
Qed.

Lemma showHelp_without_subject_witness :
  showHelp (D := Ref.deps) (C := RefHelp.collab) as_screen ["--all"; "help"]
  = shown as_screen (root (D := Ref.deps) (C := RefHelp.collab) as_screen)
  /\ showHelp (D := Ref.deps) (C := RefHelp.collab) as_screen
       (["--all"; "help"] ++ "--" :: ["build"])%list
     = shown as_screen (root (D := Ref.deps) (C := RefHelp.collab) as_screen)
  /\ showHelp (D := Ref.deps) (C := RefHelp.collab) as_screen
       (["--all"; "help"] ++ "" :: ["build"])%list
     = shown as_screen (root (D := Ref.deps) (C := RefHelp.collab) as_screen).
Proof.
  apply (showHelp_without_subject (D := Ref.deps) (C := RefHelp.collab) as_screen
           ["--all"; "help"] ["build"]).
  reflexivity.
Defined.

(** X15: when the first argument that is neither an option nor the word
    [help] is not empty, [showHelp] looks it up: a subject that is no command
    ends the call with nothing printed, in every format; a command has its
    help printed; the arguments after the subject are not read. *)
Theorem showHelp_with_subject {D : Deps} {C : Collab} (opts : HelpOptions)
        (pre post : list string) (s : string) :
  forallb skipped pre = true ->
  is_subject s = true ->
  s <> "" ->
  showHelp opts (pre ++ s :: post)%list
  = match findCommand s with
    | None => {| printed := []; failure := Some (CommandNotFound s) |}
    | Some c => shown opts (command opts c)
    end.
Proof.
  intros Hpre Hs Hne. apply showHelp_command; [|exact Hne].
  rewrite (getHelpSubject_skip pre _ Hpre). now apply getHelpSubject_at_subject.
Qed.

Lemma showHelp_with_subject_witness :
  showHelp (D := Ref.deps) (C := RefHelp.collab) as_screen
    (["help"; "-v"] ++ "deploy" :: ["build"])%list
  = {| printed := []; failure := Some (CommandNotFound "deploy") |}.
Proof.
  apply (showHelp_with_subject (D := Ref.deps) (C := RefHelp.collab) as_screen
           ["help"; "-v"] ["build"] "deploy").
  - reflexivity.
  - reflexivity.
  - discriminate.
Defined.

(** ** The sections of a markdown article *)

(** X16: a markdown section is its heading, capitalized, between asterisks,
    then an empty line, then its body, then a line feed; in a section of type
    [code] the body, whatever its shape, stands between the fences of a
    shell session. *)
Theorem markdown_section_shape {D : Deps} (s : Section_) (out : string) :
  markdown_section s = Ok out ->
  exists text,
    markdown_body s = Ok (JS.nl ++ text)
    /\ out = "**" ++ capitalize (heading s) ++ "**" ++ JS.nl ++ JS.nl
                  ++ match type s with
                     | Some code => "```sh-session" ++ JS.nl ++ text ++ JS.nl ++ "```"
                     | _ => text
                     end
                  ++ JS.nl.
Proof.
  unfold markdown_section.
  assert (Hb : forall b, markdown_body s = Ok b -> exists text, b = JS.nl ++ text).
  { unfold markdown_body. intros b.
    destruct (body_length _ =? 0)%nat;
      [|destruct (first_isArray _); [destruct (renderList _ _); [|discriminate]|]];
      cbn [bind]; intros H; injection H as <-; eexists; reflexivity. }
  destruct (markdown_body s) as [b|e]; cbn [bind]; [|discriminate].
  destruct (Hb b eq_refl) as [text ->]. intros H. injection H as <-.
  exists text. split; [reflexivity|].
  unfold JS.compact, JS.truthy.
  destruct (type s) as [[|]|]; cbn; rewrite ?append_assoc; cbn;
    rewrite ?append_assoc; reflexivity.
Qed.

Lemma markdown_section_shape_witness :
  exists text,
    markdown_body (D := Ref.deps) no_body = Ok (JS.nl ++ text)
    /\ lines ["**Usage**"; ""; ""; ""]
       = "**" ++ "Usage" ++ "**" ++ JS.nl ++ JS.nl ++ text ++ JS.nl.
Proof.
  apply (markdown_section_shape (D := Ref.deps) no_body (lines ["**Usage**"; ""; ""; ""])).
  reflexivity.
Defined.
